(** * Corriente Sound: the similarity resolution engine

    A shallow embedding of the smart-similarity server (the version of
    [server.js] that defines [generateIntelligentFeatures],
    [calculateSimilarityScore], [removeDuplicateTracks],
    [findSimilarTracksViaSpotify] and the routes [/api/similar-song/:trackId]
    and [/api/recommendations]), followed by the properties of it that the
    specification states.

    Modelling conventions.
    - A JavaScript number is an exact rational ([Q]) or one of [Infinity],
      [-Infinity], [NaN] (type [number]); the rounding error of binary64 and
      the sign of zero are not modelled.  The feature estimator only ever
      computes with finite values, so its fields are plain [Q].
    - [Math.random()] is a stream [rnd : nat -> Q]; [rnd i] is the value of
      the [i]-th call made during one estimation.
    - Strings are [string]; [toLowerCase] is the ASCII case mapping.
    - An absent ([undefined]) property is [None].
    - [async] code is a computation in [IO]: it can throw, and it appends to
      a trace of the requests it issues and of their settlements.
    - [Array.prototype.sort] is a stable insertion sort, the order every
      stable sort produces for a comparator that is consistent. *)

From Stdlib Require Import ZArith QArith Qround Qminmax Qabs Lqa Lia.
From Stdlib Require Import String Ascii List Permutation Sorted DecimalString.
From stdpp Require Import gmap strings.
Import ListNotations.

Local Open Scope string_scope.
Local Open Scope Q_scope.

(* ================================================================== *)
(** ** JavaScript numbers *)
(* ================================================================== *)

Inductive number : Type :=
| Num (q : Q)
| PosInf
| NegInf
| NaN.

Definition num_neg (a : number) : number :=
  match a with
  | Num x => Num (- x)
  | PosInf => NegInf
  | NegInf => PosInf
  | NaN => NaN
  end.

Definition num_add (a b : number) : number :=
  match a, b with
  | NaN, _ | _, NaN => NaN
  | Num x, Num y => Num (x + y)
  | PosInf, NegInf | NegInf, PosInf => NaN
  | PosInf, _ | _, PosInf => PosInf
  | NegInf, _ | _, NegInf => NegInf
  end.

Definition num_sub (a b : number) : number := num_add a (num_neg b).

(** The infinity that has the sign of [x]; [NaN] for [x = 0]. *)
Definition signed_inf (x : Q) (pos : bool) : number :=
  match x ?= 0 with
  | Eq => NaN
  | Gt => if pos then PosInf else NegInf
  | Lt => if pos then NegInf else PosInf
  end.

Definition num_mul (a b : number) : number :=
  match a, b with
  | NaN, _ | _, NaN => NaN
  | Num x, Num y => Num (x * y)
  | Num x, PosInf | PosInf, Num x => signed_inf x true
  | Num x, NegInf | NegInf, Num x => signed_inf x false
  | PosInf, PosInf | NegInf, NegInf => PosInf
  | PosInf, NegInf | NegInf, PosInf => NegInf
  end.

(** [a / b].  A zero divisor is [+0]: [x / 0] is the infinity of the sign
    of [x], and [0 / 0] is [NaN]. *)
Definition num_div (a b : number) : number :=
  match a, b with
  | NaN, _ | _, NaN => NaN
  | Num x, Num y =>
      match y ?= 0 with
      | Eq => signed_inf x true
      | _ => Num (x / y)
      end
  | Num _, _ => Num 0
  | PosInf, Num y => match y ?= 0 with Lt => NegInf | _ => PosInf end
  | NegInf, Num y => match y ?= 0 with Lt => PosInf | _ => NegInf end
  | _, _ => NaN
  end.

Definition num_abs (a : number) : number :=
  match a with
  | Num x => Num (Qabs x)
  | PosInf | NegInf => PosInf
  | NaN => NaN
  end.

(** [Math.min(a, b)] and [Math.max(a, b)]. *)
Definition num_min (a b : number) : number :=
  match a, b with
  | NaN, _ | _, NaN => NaN
  | NegInf, _ | _, NegInf => NegInf
  | PosInf, c | c, PosInf => c
  | Num x, Num y => Num (Qmin x y)
  end.

Definition num_max (a b : number) : number :=
  match a, b with
  | NaN, _ | _, NaN => NaN
  | PosInf, _ | _, PosInf => PosInf
  | NegInf, c | c, NegInf => c
  | Num x, Num y => Num (Qmax x y)
  end.

(** [v > 0] on numbers; [false] for [NaN]. *)
Definition num_gtb0 (a : number) : bool :=
  match a with
  | Num x => match x ?= 0 with Gt => true | _ => false end
  | PosInf => true
  | _ => false
  end.

(** The numeric value of a property that holds an integer, or [NaN] when
    the property is absent. *)
Definition toNumber (v : option Z) : number :=
  match v with
  | Some z => Num (inject_Z z)
  | None => NaN
  end.

(** [v || d] for an integer property: [d] when [v] is absent or [0]. *)
Definition orDefault (v : option Z) (d : Z) : Z :=
  match v with
  | Some z => if (z =? 0)%Z then d else z
  | None => d
  end.

(** [Math.round(x)]: the nearest integer, a tie going up. *)
Definition Math_round (x : Q) : Z := Qfloor (x + (1 # 2)).

(* ================================================================== *)
(** ** Strings *)
(* ================================================================== *)

Definition lower_ascii (c : ascii) : ascii :=
  let n := nat_of_ascii c in
  if (65 <=? n)%nat && (n <=? 90)%nat then ascii_of_nat (n + 32) else c.

Fixpoint toLowerCase (s : string) : string :=
  match s with
  | EmptyString => EmptyString
  | String c rest => String (lower_ascii c) (toLowerCase rest)
  end.

(** [s.includes(word)]: [word] occurs in [s] as a substring. *)
Fixpoint includes (s word : string) : bool :=
  String.prefix word s ||
  match s with
  | EmptyString => false
  | String _ rest => includes rest word
  end.

(** [words.some(word => s.includes(word))]. *)
Definition someIncluded (words : list string) (s : string) : bool :=
  existsb (fun word => includes s word) words.

(* ================================================================== *)
(** ** Track objects *)
(* ================================================================== *)

Record Artist : Type := mkArtist { artist_name : string }.

Record Album : Type := mkAlbum {
  album_name : string;
  release_date : option string
}.

(** A track object of the catalog.  [artists0] is [artists[0]], the only
    artist the code reads.  [_strategy] and [_similarity] are the two
    properties [findSimilarTracksViaSpotify] adds to a search hit. *)
Record Track : Type := mkTrack {
  id : string;
  name : string;
  artists0 : Artist;
  album : option Album;
  genres : option (list string);
  popularity : option Z;
  duration_ms : option Z;
  explicit : option bool;
  preview_url : option string;
  _strategy : option string;
  _similarity : option number
}.

(* ================================================================== *)
(** ** Feature vectors *)
(* ================================================================== *)

Record Features : Type := mkFeatures {
  acousticness : Q;
  danceability : Q;
  energy : Q;
  instrumentalness : Q;
  liveness : Q;
  loudness : Q;
  speechiness : Q;
  tempo : Q;
  valence : Q
}.

Inductive FeatureKey : Type :=
| Kacousticness | Kdanceability | Kenergy | Kinstrumentalness | Kliveness
| Kloudness | Kspeechiness | Ktempo | Kvalence.

(** [Object.keys(features)], in insertion order. *)
Definition featureKeys : list FeatureKey :=
  [Kacousticness; Kdanceability; Kenergy; Kinstrumentalness; Kliveness;
   Kloudness; Kspeechiness; Ktempo; Kvalence].

(** [features[key]]. *)
Definition getField (key : FeatureKey) (f : Features) : Q :=
  match key with
  | Kacousticness => acousticness f
  | Kdanceability => danceability f
  | Kenergy => energy f
  | Kinstrumentalness => instrumentalness f
  | Kliveness => liveness f
  | Kloudness => loudness f
  | Kspeechiness => speechiness f
  | Ktempo => tempo f
  | Kvalence => valence f
  end.

(** [features[key] = v]. *)
Definition setField (key : FeatureKey) (v : Q) (f : Features) : Features :=
  let (a, d, e, i, li, lo, s, t, va) := f in
  match key with
  | Kacousticness => mkFeatures v d e i li lo s t va
  | Kdanceability => mkFeatures a v e i li lo s t va
  | Kenergy => mkFeatures a d v i li lo s t va
  | Kinstrumentalness => mkFeatures a d e v li lo s t va
  | Kliveness => mkFeatures a d e i v lo s t va
  | Kloudness => mkFeatures a d e i li v s t va
  | Kspeechiness => mkFeatures a d e i li lo v t va
  | Ktempo => mkFeatures a d e i li lo s v va
  | Kvalence => mkFeatures a d e i li lo s t v
  end.

(** The object [generateIntelligentFeatures] returns: the nine features
    spread together with three constant tags. *)
Record EstimatedFeatures : Type := mkEstimated {
  values : Features;
  _source : string;
  _confidence : string;
  _note : string
}.

(* ================================================================== *)
(** ** The feature estimator *)
(* ================================================================== *)

Definition baseFeatures : Features :=
  {| acousticness := 0.3;
     danceability := 0.5;
     energy := 0.5;
     instrumentalness := 0.1;
     liveness := 0.1;
     loudness := -8.0;
     speechiness := 0.05;
     tempo := 120;
     valence := 0.5 |}.

Definition energeticWords : list string :=
  ["dance"; "party"; "pump"; "wild"; "fire"; "electric"; "power"; "energy";
   "rock"; "metal"].
Definition chillWords : list string :=
  ["chill"; "relax"; "calm"; "slow"; "soft"; "gentle"; "peace"; "quiet";
   "ambient"].
Definition sadWords : list string :=
  ["sad"; "cry"; "tears"; "lonely"; "hurt"; "pain"; "goodbye"; "miss";
   "sorry"].
Definition happyWords : list string :=
  ["happy"; "joy"; "love"; "smile"; "sunshine"; "bright"; "celebration";
   "party"].
Definition romanticWords : list string :=
  ["love"; "heart"; "romance"; "kiss"; "together"; "forever"; "beautiful";
   "baby"].

(** The title, artist, duration and popularity heuristics, up to and not
    including the jitter.  The second component is the number of calls to
    [Math.random] made so far. *)
Definition adjustFeatures (rnd : nat -> Q) (trackData : Track)
  : Features * nat :=
  let trackName := toLowerCase (name trackData) in
  let artistName := toLowerCase (artist_name (artists0 trackData)) in
  let albumName :=
    match album trackData with
    | Some a => toLowerCase (album_name a)
    | None => EmptyString
    end in
  let genres := match genres trackData with Some g => g | None => [] end in
  let popularity := orDefault (popularity trackData) 50 in
  let duration := orDefault (duration_ms trackData) 180000 in
  let features := baseFeatures in
  let '(features, n) :=
    if someIncluded energeticWords trackName then
      let features := setField Kenergy (Qmin 0.9 (energy features + 0.3)) features in
      let features := setField Kdanceability (Qmin 0.9 (danceability features + 0.2)) features in
      (setField Ktempo (Qmax (tempo features) (130 + rnd 0%nat * 40)) features, 1%nat)
    else (features, 0%nat) in
  let features :=
    if someIncluded chillWords trackName then
      let features := setField Kenergy (Qmax 0.1 (energy features - 0.3)) features in
      let features := setField Kacousticness (Qmin 0.8 (acousticness features + 0.3)) features in
      setField Ktempo (Qmax 70 (tempo features - 30)) features
    else features in
  let features :=
    if someIncluded sadWords trackName then
      let features := setField Kvalence (Qmax 0.1 (valence features - 0.4)) features in
      setField Kenergy (Qmax 0.2 (energy features - 0.2)) features
    else features in
  let features :=
    if someIncluded happyWords trackName then
      let features := setField Kvalence (Qmin 0.9 (valence features + 0.3)) features in
      setField Kenergy (Qmin 0.8 (energy features + 0.1)) features
    else features in
  let features :=
    if someIncluded romanticWords trackName then
      let features := setField Kvalence (Qmin 0.8 (valence features + 0.2)) features in
      setField Kacousticness (Qmin 0.7 (acousticness features + 0.2)) features
    else features in
  let features :=
    if includes artistName "dj" || includes artistName "edm" then
      let features := setField Kdanceability (Qmin 0.9 (danceability features + 0.3)) features in
      let features := setField Kenergy (Qmin 0.9 (energy features + 0.2)) features in
      setField Ktempo (Qmax (tempo features) 128) features
    else features in
  let features :=
    if (300000 <? duration)%Z then
      let features := setField Kacousticness (Qmin 0.7 (acousticness features + 0.2)) features in
      setField Kinstrumentalness (Qmin 0.4 (instrumentalness features + 0.1)) features
    else features in
  let features :=
    if (70 <? popularity)%Z then
      let features := setField Kdanceability (Qmin 0.8 (danceability features + 0.1)) features in
      setField Kenergy (Qmin 0.8 (energy features + 0.1)) features
    else features in
  (features, n).

(** One iteration of the jitter loop: one call to [Math.random]. *)
Definition jitterKey (rnd : nat -> Q) (acc : Features * nat) (key : FeatureKey)
  : Features * nat :=
  let '(features, n) := acc in
  match key with
  | Ktempo =>
      let features :=
        setField key (getField key features + (rnd n - 0.5) * 10) features in
      (setField key (Qmax 60 (Qmin 200 (getField key features))) features, S n)
  | _ =>
      let randomFactor := (rnd n - 0.5) * 0.1 in
      (setField key (Qmax 0 (Qmin 1 (getField key features + randomFactor)))
         features, S n)
  end.

(** [Math.round(x * 1000) / 1000]. *)
Definition round3 (x : Q) : Q := inject_Z (Math_round (x * 1000)) / 1000.

Definition roundKey (features : Features) (key : FeatureKey) : Features :=
  setField key (round3 (getField key features)) features.

Definition generateIntelligentFeatures (rnd : nat -> Q) (trackData : Track)
  : EstimatedFeatures :=
  let acc := adjustFeatures rnd trackData in
  let '(features, _) := fold_left (jitterKey rnd) featureKeys acc in
  let features := fold_left roundKey featureKeys features in
  {| values := features;
     _source := "intelligent_estimation";
     _confidence := "medium";
     _note := "Features estimated from track metadata and name analysis" |}.

(** [getIntelligentFeatures]: the nine features without the tags. *)
Definition getIntelligentFeatures (rnd : nat -> Q) (trackData : Track)
  : Features :=
  let features := generateIntelligentFeatures rnd trackData in
  {| acousticness := acousticness (values features);
     danceability := danceability (values features);
     energy := energy (values features);
     instrumentalness := instrumentalness (values features);
     liveness := liveness (values features);
     loudness := loudness (values features);
     speechiness := speechiness (values features);
     tempo := tempo (values features);
     valence := valence (values features) |}.

(* ================================================================== *)
(** ** Genre and keywords of a feature vector *)
(* ================================================================== *)

Definition Qltb (a b : Q) : bool :=
  match a ?= b with Lt => true | _ => false end.

Definition getGenreFromFeatures (features : Features) : string :=
  if Qltb 0.8 (energy features) && Qltb 0.7 (danceability features)
  then "electronic dance"
  else if Qltb 0.7 (energy features) && Qltb 140 (tempo features) then "rock"
  else if Qltb 0.6 (acousticness features) then "folk"
  else if Qltb 0.7 (danceability features) then "pop"
  else if Qltb (valence features) 0.3 then "indie"
  else if Qltb (energy features) 0.4 then "ambient"
  else "pop".

Definition getFeatureKeywords (features : Features) : list string :=
  let keywords := (
    (if Qltb 0.7 (energy features) then ["energetic"; "upbeat"; "powerful"] else []) ++
    (if Qltb (energy features) 0.3 then ["calm"; "mellow"; "peaceful"] else []) ++
    (if Qltb 0.7 (danceability features) then ["danceable"; "groovy"; "rhythm"] else []) ++
    (if Qltb (danceability features) 0.3 then ["contemplative"; "thoughtful"] else []) ++
    (if Qltb 0.7 (valence features) then ["happy"; "joyful"; "cheerful"] else []) ++
    (if Qltb (valence features) 0.3 then ["melancholy"; "emotional"; "introspective"] else []) ++
    (if Qltb 0.6 (acousticness features) then ["acoustic"; "unplugged"; "intimate"] else []) ++
    (if Qltb (acousticness features) 0.2 then ["electric"; "produced"; "synthetic"] else []) ++
    (if Qltb 140 (tempo features) then ["fast"; "driving"] else []) ++
    (if Qltb (tempo features) 80 then ["slow"; "ballad"] else []))%list in
  match keywords with
  | [] => ["similar"; "like"]
  | _ => keywords
  end.

(* ================================================================== *)
(** ** Scoring, deduplication, ranking *)
(* ================================================================== *)

(** Truthiness of a string property: present and not empty. *)
Definition truthy (s : option string) : bool :=
  match s with
  | Some (String _ _) => true
  | _ => false
  end.

(** [a === b] on an optional boolean. *)
Definition strictEqual (a b : option bool) : bool :=
  match a, b with
  | Some x, Some y => Bool.eqb x y
  | None, None => true
  | _, _ => false
  end.

Definition calculateSimilarityScore (targetFeatures : Features)
    (candidateTrack originalTrack : Track) : number :=
  let score := Num 1.0 in
  let score :=
    if String.eqb (toLowerCase (artist_name (artists0 candidateTrack)))
                  (toLowerCase (artist_name (artists0 originalTrack)))
    then num_sub score (Num 0.3) else score in
  let popularityDiff :=
    num_div (num_abs (num_sub (toNumber (popularity candidateTrack))
                              (toNumber (popularity originalTrack))))
            (Num 100) in
  let score := num_sub score (num_mul popularityDiff (Num 0.1)) in
  let durationDiff :=
    num_div (num_abs (num_sub (toNumber (duration_ms candidateTrack))
                              (toNumber (duration_ms originalTrack))))
            (toNumber (duration_ms originalTrack)) in
  let score := num_sub score (num_mul (num_min durationDiff (Num 0.5)) (Num 0.1)) in
  let score :=
    if truthy (preview_url candidateTrack) then num_add score (Num 0.1)
    else score in
  let score :=
    if strictEqual (explicit originalTrack) (explicit candidateTrack)
    then num_add score (Num 0.05) else score in
  num_max (Num 0) score.

(** The key of [removeDuplicateTracks]. *)
Definition dedupKey (track : Track) : string :=
  toLowerCase (name track) ++ "-" ++
  toLowerCase (artist_name (artists0 track)).

(** [tracks.filter(...)] with the set [seen] that the callback updates. *)
Fixpoint removeDuplicatesFrom (seen : gset string) (tracks : list Track)
  : list Track :=
  match tracks with
  | [] => []
  | track :: rest =>
      let key := dedupKey track in
      if bool_decide (key ∈ seen) then removeDuplicatesFrom seen rest
      else track :: removeDuplicatesFrom (seen ∪ {[ key ]}) rest
  end.

Definition removeDuplicateTracks (tracks : list Track) : list Track :=
  removeDuplicatesFrom ∅ tracks.

(** [track._similarity] read as a number. *)
Definition similarityOf (track : Track) : number :=
  match _similarity track with
  | Some v => v
  | None => NaN
  end.

(** The comparator [(a, b) => b._similarity - a._similarity]. *)
Definition bySimilarity (a b : Track) : number :=
  num_sub (similarityOf b) (similarityOf a).

(** [Array.prototype.sort(compare)] is stable; for a consistent comparator
    its result is the one of a stable insertion sort.  [insertSorted] puts
    [x], which precedes every element of [l] in the array, after the
    elements that [compare] orders strictly before it. *)
Fixpoint insertSorted {A : Type} (compare : A -> A -> number) (x : A)
    (l : list A) : list A :=
  match l with
  | [] => [x]
  | y :: rest =>
      if num_gtb0 (compare x y) then y :: insertSorted compare x rest
      else x :: l
  end.

Definition sortWith {A : Type} (compare : A -> A -> number) (l : list A)
  : list A :=
  fold_right (insertSorted compare) [] l.

(** [l.slice(0, end)]; [None] is an [end] of [NaN]. *)
Definition slice0 {A : Type} (l : list A) (end_ : option Z) : list A :=
  match end_ with
  | None => []
  | Some e =>
      let len := Z.of_nat (length l) in
      if (e <? 0)%Z then firstn (Z.to_nat (Z.max (len + e) 0)) l
      else firstn (Z.to_nat (Z.min e len)) l
  end.

(* ================================================================== *)
(** ** Search strategies *)
(* ================================================================== *)

Definition digitValue (c : ascii) : option Z :=
  let n := nat_of_ascii c in
  if (48 <=? n)%nat && (n <=? 57)%nat then Some (Z.of_nat (n - 48)) else None.

Fixpoint parseDigits (acc : Z) (s : string) : option Z :=
  match s with
  | EmptyString => Some acc
  | String c rest =>
      match digitValue c with
      | Some d => parseDigits (acc * 10 + d)%Z rest
      | None => None
      end
  end.

(** The number a string converts to, for the strings that are empty or an
    integer in decimal digits with an optional minus sign; [None] is [NaN].
    Other numeric literals (fractions, exponents, surrounding blanks) are
    not covered and read as [NaN] here. *)
Definition stringToNumber (s : string) : option Z :=
  match s with
  | EmptyString => Some 0%Z
  | String "-"%char (String _ _ as digits) =>
      option_map Z.opp (parseDigits 0 digits)
  | _ => parseDigits 0 s
  end.

(** A number inside a template literal. *)
Definition numberToString (v : option Z) : string :=
  match v with
  | Some z => NilZero.string_of_int (Z.to_int z)
  | None => "NaN"
  end.

(** [s.split('-')[0]]. *)
Fixpoint splitHead (s : string) : string :=
  match s with
  | EmptyString => EmptyString
  | String c rest =>
      if Ascii.eqb c "-"%char then EmptyString else String c (splitHead rest)
  end.

Definition dquote : string := String "034"%char EmptyString.

Record SearchStrategy : Type := mkStrategy {
  query : option string;
  description : string
}.

(** The query of a strategy as it is interpolated into the request. *)
Definition queryText (strategy : SearchStrategy) : string :=
  match query strategy with
  | Some q => q
  | None => "null"
  end.

(** The array [searchStrategies] of [findSimilarTracksViaSpotify], for a
    seed whose album is [seedAlbum]. *)
Definition searchStrategies (originalTrack : Track) (seedAlbum : Album)
    (audioFeatures : Features) : list SearchStrategy :=
  let artistName := artist_name (artists0 originalTrack) in
  let trackName := name originalTrack in
  let albumName := album_name seedAlbum in
  let releaseYear :=
    if truthy (release_date seedAlbum)
    then option_map splitHead (release_date seedAlbum)
    else None in
  let notArtist := " NOT artist:" ++ dquote ++ artistName ++ dquote in
  let notTrack := " NOT track:" ++ dquote ++ trackName ++ dquote in
  List.filter (fun strategy => truthy (query strategy))
    [ {| query := Some ("genre:" ++ dquote ++ getGenreFromFeatures audioFeatures
                        ++ dquote ++ notArtist);
         description := "Similar genre, different artist" |};
      {| query := Some ("artist:" ++ dquote ++ artistName ++ dquote ++ notTrack);
         description := "Same artist, different song" |};
      {| query := Some (String.concat " OR " (getFeatureKeywords audioFeatures)
                        ++ notArtist);
         description := "Feature-based keywords" |};
      {| query :=
           if truthy releaseYear then
             let decade :=
               option_map (fun y => (y / 10) * 10)%Z
                 (match releaseYear with
                  | Some y => stringToNumber y
                  | None => None
                  end) in
             Some ("year:" ++ numberToString decade ++ "-" ++
                   numberToString (option_map (fun d => d + 9)%Z decade) ++
                   notArtist)
           else None;
         description := "Same decade" |};
      {| query := Some ("album:" ++ dquote ++ albumName ++ dquote ++ notTrack);
         description := "Same album" |} ].

(* ================================================================== *)
(** ** Asynchronous computations *)
(* ================================================================== *)

(** What a computation does to the outside, in the order it does it.  A
    request is issued by the call to [fetch] and settled when the [await]
    on it resumes. *)
Inductive Event : Type :=
| TokenRequested
| TrackIssued (trackId : string)
| TrackSettled (trackId : string)
| SearchIssued (q : string)
| SearchSettled (q : string).

Inductive Outcome (A : Type) : Type :=
| Returned (a : A)
| Thrown (message : string).
Arguments Returned {A} a.
Arguments Thrown {A} message.

Definition IO (A : Type) : Type := list Event -> Outcome A * list Event.

Definition io_ret {A : Type} (a : A) : IO A := fun trace => (Returned a, trace).

Definition io_bind {A B : Type} (m : IO A) (k : A -> IO B) : IO B :=
  fun trace =>
    match m trace with
    | (Returned a, trace') => k a trace'
    | (Thrown message, trace') => (Thrown message, trace')
    end.

Definition throw {A : Type} (message : string) : IO A :=
  fun trace => (Thrown message, trace).

(** [try { m } catch (error) { handler(error.message) }]. *)
Definition tryCatch {A : Type} (m : IO A) (handler : string -> IO A) : IO A :=
  fun trace =>
    match m trace with
    | (Returned a, trace') => (Returned a, trace')
    | (Thrown message, trace') => handler message trace'
    end.

Definition emit (e : Event) : IO unit :=
  fun trace => (Returned tt, (trace ++ [e])%list).

Definition settle {A : Type} (o : Outcome A) : IO A := fun trace => (o, trace).

Notation "x <- m ;; k" := (io_bind m (fun x => k))
  (at level 100, m at next level, right associativity).
Notation "m ;;; k" := (io_bind m (fun _ => k))
  (at level 100, right associativity).

(** What [await fetch(url)] gives: the call rejects, or it resolves to a
    response with its [ok] flag, its status and the outcome of reading the
    body as the value the caller takes from it. *)
Inductive Response (A : Type) : Type :=
| Rejected (message : string)
| Resolved (ok : bool) (status : Z) (json : Outcome A).
Arguments Rejected {A} message.
Arguments Resolved {A} ok status json.

(** The catalog as one request sees it.  [searchResponse q] answers the
    search for the query [q]; its body is [searchData.tracks.items]. *)
Record Catalog : Type := mkCatalog {
  tokenOutcome : Outcome string;
  trackResponse : string -> Response Track;
  searchResponse : string -> Response (list Track)
}.

Definition getSpotifyToken (catalog : Catalog) : IO string :=
  emit TokenRequested ;;; settle (tokenOutcome catalog).

(* ================================================================== *)
(** ** The aggregation *)
(* ================================================================== *)

(** [track._strategy = v] and [track._similarity = v]. *)
Definition setStrategy (v : string) (track : Track) : Track :=
  {| id := id track; name := name track; artists0 := artists0 track;
     album := album track; genres := genres track;
     popularity := popularity track; duration_ms := duration_ms track;
     explicit := explicit track; preview_url := preview_url track;
     _strategy := Some v; _similarity := _similarity track |}.

Definition setSimilarity (v : number) (track : Track) : Track :=
  {| id := id track; name := name track; artists0 := artists0 track;
     album := album track; genres := genres track;
     popularity := popularity track; duration_ms := duration_ms track;
     explicit := explicit track; preview_url := preview_url track;
     _strategy := _strategy track; _similarity := Some v |}.

(** The body of the [try] block for one strategy: the candidates collected
    so far are [allCandidates], the result is their new value. *)
Definition tryStrategy (catalog : Catalog) (originalTrack : Track)
    (audioFeatures : Features) (strategy : SearchStrategy)
    (allCandidates : list Track) : IO (list Track) :=
  emit (SearchIssued (queryText strategy)) ;;;
  match searchResponse catalog (queryText strategy) with
  | Rejected message =>
      emit (SearchSettled (queryText strategy)) ;;; throw message
  | Resolved ok _ json =>
      emit (SearchSettled (queryText strategy)) ;;;
      if ok then
        items <- settle json ;;
        let tracks :=
          List.filter (fun track => negb (String.eqb (id track) (id originalTrack)))
            items in
        let tracks :=
          List.map (fun track =>
            let track := setStrategy (description strategy) track in
            setSimilarity
              (calculateSimilarityScore audioFeatures track originalTrack) track)
            tracks in
        io_ret (allCandidates ++ tracks)%list
      else io_ret allCandidates
  end.

(** The [for ... of] loop over the strategies. *)
Fixpoint executeStrategies (catalog : Catalog) (originalTrack : Track)
    (audioFeatures : Features) (strategies : list SearchStrategy)
    (allCandidates : list Track) : IO (list Track) :=
  match strategies with
  | [] => io_ret allCandidates
  | strategy :: rest =>
      allCandidates <-
        tryCatch
          (tryStrategy catalog originalTrack audioFeatures strategy allCandidates)
          (fun _ => io_ret allCandidates) ;;
      executeStrategies catalog originalTrack audioFeatures rest allCandidates
  end.

Definition findSimilarTracksViaSpotify (catalog : Catalog)
    (originalTrack : Track) (audioFeatures : Features) (token : string)
  : IO (list Track) :=
  match album originalTrack with
  | None => throw "Cannot read properties of undefined (reading 'name')"
  | Some seedAlbum =>
      let strategies := searchStrategies originalTrack seedAlbum audioFeatures in
      allCandidates <-
        executeStrategies catalog originalTrack audioFeatures strategies [] ;;
      let uniqueCandidates := removeDuplicateTracks allCandidates in
      let sortedCandidates := sortWith bySimilarity uniqueCandidates in
      io_ret (slice0 sortedCandidates (Some 10%Z))
  end.

(* ================================================================== *)
(** ** The routes *)
(* ================================================================== *)

Record TrackSummary : Type := mkSummary {
  summary_id : string;
  summary_name : string;
  summary_artist : string;
  summary_album : string
}.

Record Pipeline : Type := mkPipeline {
  method : string;
  tracksFound : nat;
  topMatches : nat;
  success : bool
}.

Inductive ResponseBody : Type :=
| SimilarSongBody (originalTrack : TrackSummary) (audioFeatures : Features)
    (similarTracks allSimilarTracks : list Track) (pipeline : Pipeline)
| TrackListBody (tracks : list Track)
| ErrorBody (error : string) (details : option string) (trackId : option string).

(** [res.status(status).json(body)]; [res.json(body)] has status 200. *)
Record HttpReply : Type := mkReply {
  status : Z;
  body : ResponseBody
}.

(** [await fetch(`https://api.spotify.com/v1/tracks/${trackId}`, ...)]. *)
Definition fetchTrack (catalog : Catalog) (trackId : string)
  : IO (Response Track) :=
  emit (TrackIssued trackId) ;;;
  emit (TrackSettled trackId) ;;;
  match trackResponse catalog trackId with
  | Rejected message => throw message
  | response => io_ret response
  end.

Definition responseOk {A : Type} (response : Response A) : bool :=
  match response with
  | Resolved ok _ _ => ok
  | Rejected _ => false
  end.

Definition responseStatus {A : Type} (response : Response A) : Z :=
  match response with
  | Resolved _ status _ => status
  | Rejected _ => 0%Z
  end.

(** [await response.json()]. *)
Definition responseJson {A : Type} (response : Response A) : IO A :=
  match response with
  | Resolved _ _ json => settle json
  | Rejected message => throw message
  end.

(** [app.get('/api/similar-song/:trackId', ...)]. *)
Definition similarSongRoute (catalog : Catalog) (rnd : nat -> Q)
    (trackId : string) : IO HttpReply :=
  tryCatch
    (token <- getSpotifyToken catalog ;;
     trackResponse <- fetchTrack catalog trackId ;;
     if negb (responseOk trackResponse) then
       throw ("Failed to get track info: " ++
              numberToString (Some (responseStatus trackResponse)))
     else
       originalTrack <- responseJson trackResponse ;;
       let audioFeatures := getIntelligentFeatures rnd originalTrack in
       similarTracks <-
         findSimilarTracksViaSpotify catalog originalTrack audioFeatures token ;;
       let topMatches :=
         if (0 <? length similarTracks)%nat
         then slice0 similarTracks (Some 5%Z) else [] in
       match album originalTrack with
       | None => throw "Cannot read properties of undefined (reading 'name')"
       | Some seedAlbum =>
           io_ret
             {| status := 200;
                body :=
                  SimilarSongBody
                    {| summary_id := id originalTrack;
                       summary_name := name originalTrack;
                       summary_artist := artist_name (artists0 originalTrack);
                       summary_album := album_name seedAlbum |}
                    audioFeatures topMatches similarTracks
                    {| method := "smart_spotify_search";
                       tracksFound := length similarTracks;
                       topMatches := length topMatches;
                       success := (0 <? length topMatches)%nat |} |}
       end)
    (fun message =>
       io_ret {| status := 500;
                 body := ErrorBody "Failed to find similar song" (Some message)
                           (Some trackId) |}).

(** [Math.min(limit, n)] for the query parameter [limit] and a length. *)
Definition minLimit (limit : option Z) (n : nat) : option Z :=
  option_map (fun l => Z.min l (Z.of_nat n)) limit.

(** [app.get('/api/recommendations', ...)].  [seed_tracks] and [limit] are
    the query parameters of the request, absent when [None]. *)
Definition recommendationsRoute (catalog : Catalog) (rnd : nat -> Q)
    (seed_tracks limit : option string) : IO HttpReply :=
  tryCatch
    (let limit :=
       match limit with
       | Some text => stringToNumber text
       | None => Some 9%Z
       end in
     match seed_tracks with
     | Some (String _ _ as seedId) =>
         token <- getSpotifyToken catalog ;;
         trackResponse <- fetchTrack catalog seedId ;;
         if responseOk trackResponse then
           trackData <- responseJson trackResponse ;;
           let audioFeatures := getIntelligentFeatures rnd trackData in
           similarTracks <-
             findSimilarTracksViaSpotify catalog trackData audioFeatures token ;;
           let recommendations :=
             slice0 similarTracks (minLimit limit (length similarTracks)) in
           io_ret {| status := 200; body := TrackListBody recommendations |}
         else io_ret {| status := 200; body := TrackListBody [] |}
     | _ =>
         io_ret {| status := 400;
                   body := ErrorBody "seed_tracks parameter required" None None |}
     end)
    (fun _ =>
       io_ret {| status := 500;
                 body := ErrorBody "Failed to get recommendations" None None |}).


(* ================================================================== *)
(** ** Predicates and reference definitions of the statements *)
(* ================================================================== *)

(** Two numbers with the same value. *)
Definition num_eq (a b : number) : Prop :=
  match a, b with
  | Num x, Num y => x == y
  | PosInf, PosInf | NegInf, NegInf | NaN, NaN => True
  | _, _ => False
  end.


(** A popularity that is present and in [0,100]. *)
Definition popularityInRange (track : Track) : bool :=
  match popularity track with
  | Some p => (0 <=? p)%Z && (p <=? 100)%Z
  | None => false
  end.

(** The tracks the scoring is specified for: both popularities are in
    [0,100], the candidate has a duration, the seed a positive one. *)
Definition scorable (candidate seed : Track) : bool :=
  popularityInRange candidate && popularityInRange seed &&
  match duration_ms candidate, duration_ms seed with
  | Some _, Some d => (0 <? d)%Z
  | _, _ => false
  end.

(** The rational value of an integer property, 0 when it is absent. *)
Definition valueOf (v : option Z) : Q :=
  match v with
  | Some z => inject_Z z
  | None => 0
  end.

(** The similarity score in the words of the specification: start at 1.0;
    subtract 0.3 for the same primary artist, compared without case;
    subtract [min(|popularity_diff|/100, 1) * 0.1]; subtract
    [min(|duration_diff|/seed_duration, 0.5) * 0.1]; add 0.1 for a playable
    preview; add 0.05 for a matching explicit flag; floor at 0. *)
Definition specSimilarityScore (candidate seed : Track) : Q :=
  let popularity_diff :=
    valueOf (popularity candidate) - valueOf (popularity seed) in
  let duration_diff :=
    valueOf (duration_ms candidate) - valueOf (duration_ms seed) in
  let seed_duration := valueOf (duration_ms seed) in
  Qmax 0
    (1.0
     - (if String.eqb (toLowerCase (artist_name (artists0 candidate)))
                      (toLowerCase (artist_name (artists0 seed)))
        then 0.3 else 0)
     - Qmin (Qabs popularity_diff / 100) 1 * 0.1
     - Qmin (Qabs duration_diff / seed_duration) 0.5 * 0.1
     + (if truthy (preview_url candidate) then 0.1 else 0)
     + (if strictEqual (explicit seed) (explicit candidate) then 0.05 else 0)).

(** What [calculateSimilarityScore] computes, on rationals, for a pair of
    scorable tracks. *)
Definition scoreValue (candidate seed : Track) : Q :=
  let score := 1.0 in
  let score :=
    if String.eqb (toLowerCase (artist_name (artists0 candidate)))
                  (toLowerCase (artist_name (artists0 seed)))
    then score - 0.3 else score in
  let popularityDiff :=
    Qabs (valueOf (popularity candidate) - valueOf (popularity seed)) / 100 in
  let score := score - popularityDiff * 0.1 in
  let durationDiff :=
    Qabs (valueOf (duration_ms candidate) - valueOf (duration_ms seed))
    / valueOf (duration_ms seed) in
  let score := score - Qmin durationDiff 0.5 * 0.1 in
  let score := if truthy (preview_url candidate) then score + 0.1 else score in
  let score :=
    if strictEqual (explicit seed) (explicit candidate)
    then score + 0.05 else score in
  Qmax 0 score.

(** The descriptions of the five strategies, in the order of the array. *)
Definition strategyDescriptions : list string :=
  ["Similar genre, different artist"; "Same artist, different song";
   "Feature-based keywords"; "Same decade"; "Same album"].

Fixpoint indexOf (s : string) (l : list string) : nat :=
  match l with
  | [] => 0%nat
  | x :: rest => if String.eqb s x then 0%nat else S (indexOf s rest)
  end.

(** The ordinal of the strategy a candidate comes from. *)
Definition strategyPriority (track : Track) : nat :=
  match _strategy track with
  | Some d => indexOf d strategyDescriptions
  | None => length strategyDescriptions
  end.

(** The ranking order in the words of the specification: descending by
    score; ties broken by the strategy priority of origin, lower ordinal
    first; then by identifier ascending. *)
Definition specRankLeb (a b : Track) : bool :=
  match similarityOf a, similarityOf b with
  | Num x, Num y =>
      match x ?= y with
      | Gt => true
      | Lt => false
      | Eq =>
          match Nat.compare (strategyPriority a) (strategyPriority b) with
          | Lt => true
          | Gt => false
          | Eq => String.leb (id a) (id b)
          end
      end
  | _, _ => false
  end.

(** Every element is related by [leb] to all the elements after it. *)
Fixpoint sortedByb {A : Type} (leb : A -> A -> bool) (l : list A) : bool :=
  match l with
  | [] => true
  | x :: rest => forallb (leb x) rest && sortedByb leb rest
  end.

(** The score of the track is a finite number. *)
Definition hasNumericScore (track : Track) : bool :=
  match similarityOf track with
  | Num _ => true
  | _ => false
  end.

(** [a] scores at least as much as [b]. *)
Definition scoreGeb (a b : Track) : bool :=
  match similarityOf a, similarityOf b with
  | Num x, Num y => Qle_bool y x
  | _, _ => false
  end.

(** The score of [track] is [q]. *)
Definition scoreIs (q : Q) (track : Track) : bool :=
  match similarityOf track with
  | Num x => Qeq_bool x q
  | _ => false
  end.

(** A strategy fails when its query throws, comes back with a status that
    is not a success, or has a body that cannot be read. *)
Definition strategyFails (catalog : Catalog) (strategy : SearchStrategy)
  : bool :=
  match searchResponse catalog (queryText strategy) with
  | Resolved true _ (Returned _) => false
  | _ => true
  end.

(** The candidates one strategy contributes to [allCandidates]. *)
Definition strategyCandidates (catalog : Catalog) (originalTrack : Track)
    (audioFeatures : Features) (strategy : SearchStrategy) : list Track :=
  match searchResponse catalog (queryText strategy) with
  | Resolved true _ (Returned items) =>
      List.map (fun track =>
        let track := setStrategy (description strategy) track in
        setSimilarity
          (calculateSimilarityScore audioFeatures track originalTrack) track)
        (List.filter
           (fun track => negb (String.eqb (id track) (id originalTrack)))
           items)
  | _ => []
  end.

(** The events of one strategy. *)
Definition strategyEvents (strategy : SearchStrategy) : list Event :=
  [SearchIssued (queryText strategy); SearchSettled (queryText strategy)].

(** Fan-out in the words of the specification: no search is issued after
    some search has settled. *)
Fixpoint noIssueAfterSettle (settled : bool) (trace : list Event) : bool :=
  match trace with
  | [] => true
  | SearchIssued _ :: rest => negb settled && noIssueAfterSettle settled rest
  | SearchSettled _ :: rest => noIssueAfterSettle true rest
  | _ :: rest => noIssueAfterSettle settled rest
  end.

Definition fannedOut (trace : list Event) : bool :=
  noIssueAfterSettle false trace.

(** A request rejected as invalid input before any catalog work: status
    400 and an empty trace. *)
Definition rejectedBeforeWork (result : Outcome HttpReply * list Event)
  : bool :=
  match result with
  | (Returned reply, []) => (status reply =? 400)%Z
  | _ => false
  end.

(** The declared range of every bounded field. *)
Definition fieldsInRange (f : Features) : Prop :=
  0 <= acousticness f <= 1 /\
  0 <= danceability f <= 1 /\
  0 <= energy f <= 1 /\
  0 <= instrumentalness f <= 1 /\
  0 <= liveness f <= 1 /\
  0 <= speechiness f <= 1 /\
  0 <= valence f <= 1 /\
  60 <= tempo f <= 200.

(** A stream of values that [Math.random] can return. *)
Definition unitStream (rnd : nat -> Q) : Prop := forall i, 0 <= rnd i < 1.


(** The ranked list of [findSimilarTracksViaSpotify], from the candidates
    of the strategies. *)
Definition rankedCandidates (catalog : Catalog) (originalTrack : Track)
    (seedAlbum : Album) (audioFeatures : Features) : list Track :=
  slice0
    (sortWith bySimilarity
       (removeDuplicateTracks
          (flat_map (strategyCandidates catalog originalTrack audioFeatures)
             (searchStrategies originalTrack seedAlbum audioFeatures))))
    (Some 10%Z).

(* ================================================================== *)
(** ** Sample data *)
(* ================================================================== *)

Definition sampleAlbum : Album :=
  {| album_name := "Sample Album"; release_date := Some "1999-05-01" |}.

Definition sampleTrack (trackId title artist : string) (pop dur : Z)
    (preview : option string) : Track :=
  {| id := trackId; name := title; artists0 := {| artist_name := artist |};
     album := Some sampleAlbum;
     genres := None;
     popularity := Some pop; duration_ms := Some dur;
     explicit := Some false; preview_url := preview;
     _strategy := None; _similarity := None |}.

Definition seedTrack : Track :=
  sampleTrack "seed" "Happy Dance Party" "DJ Test" 80 200000 None.


(** [Math.random] returning 0.5 at every call. *)
Definition halfStream : nat -> Q := fun _ => 0.5.

Definition trackA : Track :=
  sampleTrack "a" "Song A" "Artist A" 80 200000 None.

Definition trackB : Track :=
  sampleTrack "b" "Song B" "Artist B" 80 200000 None.

Definition seedFeatures : Features :=
  getIntelligentFeatures halfStream seedTrack.

(** A catalog that knows the seed, answers the genre search with
    [trackB], the seed itself and [trackA], in this order, and fails every
    other search. *)
Definition sampleCatalog : Catalog :=
  {| tokenOutcome := Returned "token";
     trackResponse := fun trackId =>
       if String.eqb trackId "seed"
       then Resolved true 200 (Returned seedTrack)
       else Resolved false 404 (Thrown "not found");
     searchResponse := fun q =>
       if String.prefix "genre:" q
       then Resolved true 200 (Returned [trackB; seedTrack; trackA])
       else if String.prefix "artist:" q then Rejected "network error"
       else Resolved false 500 (Thrown "no body") |}.

(** A catalog that knows the seed and fails every search. *)
Definition failingCatalog : Catalog :=
  {| tokenOutcome := Returned "token";
     trackResponse := fun trackId =>
       if String.eqb trackId "seed"
       then Resolved true 200 (Returned seedTrack)
       else Resolved false 404 (Thrown "not found");
     searchResponse := fun q => Rejected "network error" |}.

(** The first two searches for [seedTrack] and [seedFeatures]. *)
Definition genreQuery : string :=
  "genre:" ++ dquote ++ "rock" ++ dquote ++
  " NOT artist:" ++ dquote ++ "DJ Test" ++ dquote.

Definition artistQuery : string :=
  "artist:" ++ dquote ++ "DJ Test" ++ dquote ++
  " NOT track:" ++ dquote ++ "Happy Dance Party" ++ dquote.

(* ================================================================== *)
(** ** Ranges of the estimator *)
(* ================================================================== *)

(** [lo <= x <= hi], decided. *)
Definition Qbetween (lo hi x : Q) : bool := Qle_bool lo x && Qle_bool x hi.

(** The values the heuristics can leave in the fields other than tempo,
    before the jitter. *)
Definition heuristicRangeb (f : Features) : bool :=
  Qbetween 0.3 0.7 (acousticness f) &&
  Qbetween 0.5 0.9 (danceability f) &&
  Qbetween 0.2 0.9 (energy f) &&
  Qbetween 0.1 0.2 (instrumentalness f) &&
  Qbetween 0.1 0.1 (liveness f) &&
  Qbetween 0.05 0.05 (speechiness f) &&
  Qbetween 0.1 0.8 (valence f).

(** The values the estimator can return when [Math.random] stays in
    [0,1). *)
Definition estimateRange (f : Features) : Prop :=
  0.25 <= acousticness f <= 0.75 /\
  0.45 <= danceability f <= 0.95 /\
  0.15 <= energy f <= 0.95 /\
  0.05 <= instrumentalness f <= 0.25 /\
  0.05 <= liveness f <= 0.15 /\
  0 <= speechiness f <= 0.1 /\
  0.05 <= valence f <= 0.85 /\
  85 <= tempo f <= 175.

(** The artist test of the estimator. *)
Definition isDjArtist (trackData : Track) : bool :=
  let artistName := toLowerCase (artist_name (artists0 trackData)) in
  includes artistName "dj" || includes artistName "edm".

(* ================================================================== *)
(** ** Parts of the strategies *)
(* ================================================================== *)

(** The album has a release date whose part before the first hyphen is
    not empty. *)
Definition hasReleaseYear (seedAlbum : Album) : bool :=
  match release_date seedAlbum with
  | Some date => truthy (Some (splitHead date))
  | None => false
  end.

(** The two exclusions a query can end with. *)
Definition notArtistClause (originalTrack : Track) : string :=
  " NOT artist:" ++ dquote ++ artist_name (artists0 originalTrack) ++ dquote.

Definition notTrackClause (originalTrack : Track) : string :=
  " NOT track:" ++ dquote ++ name originalTrack ++ dquote.


(** What every candidate of a strategy carries. *)
Definition annotatedFor (catalog : Catalog) (originalTrack : Track)
    (seedAlbum : Album) (audioFeatures : Features) (track : Track) : Prop :=
  (exists strategy,
      In strategy (searchStrategies originalTrack seedAlbum audioFeatures) /\
      _strategy track = Some (description strategy)) /\
  _similarity track
  = Some (calculateSimilarityScore audioFeatures track originalTrack).

(* ================================================================== *)
(** ** The token cache *)
(* ================================================================== *)

(** [getSpotifyToken] with the two variables it keeps between calls.  The
    routes above only use whether a call returns a token or throws; here
    the cache itself is modelled.  A call reads the clock once for the
    test ([now]) and, when it refreshes, once more after the answer
    ([nowAfter]). *)
Module TokenCache.

Record State : Type := mkState {
  spotifyAccessToken : string;
  tokenExpiryTime : Z
}.

(** The module starts with [''] and [0]. *)
Definition initial : State :=
  {| spotifyAccessToken := EmptyString; tokenExpiryTime := 0 |}.

(** The body of the token endpoint's answer. *)
Record TokenData : Type := mkTokenData {
  access_token : string;
  expires_in : Z
}.

(** What a call gives back: its outcome, the variables after it, and
    whether it sent a request to the token endpoint. *)
Record Result : Type := mkResult {
  outcome : Outcome string;
  state : State;
  requested : bool
}.

(** The test of the first line: a token is held and more than five
    minutes of it are left. *)
Definition fresh (s : State) (now : Z) : bool :=
  truthy (Some (spotifyAccessToken s)) &&
  (now <? tokenExpiryTime s - 300000)%Z.

Definition getSpotifyToken (s : State) (now : Z)
    (response : Response TokenData) (nowAfter : Z) : Result :=
  if fresh s now then
    {| outcome := Returned (spotifyAccessToken s); state := s;
       requested := false |}
  else
    match response with
    | Rejected message =>
        {| outcome := Thrown message; state := s; requested := true |}
    | Resolved ok status json =>
        if negb ok then
          {| outcome :=
               Thrown ("HTTP error! status: " ++
                       numberToString (Some status));
             state := s; requested := true |}
        else
          match json with
          | Thrown message =>
              {| outcome := Thrown message; state := s; requested := true |}
          | Returned data =>
              {| outcome := Returned (access_token data);
                 state :=
                   {| spotifyAccessToken := access_token data;
                      tokenExpiryTime :=
                        (nowAfter + expires_in data * 1000)%Z |};
                 requested := true |}
          end
    end.

(** An answer of the token endpoint that makes the call throw. *)
Definition failed (response : Response TokenData) : bool :=
  match response with
  | Resolved true _ (Returned _) => false
  | _ => true
  end.

End TokenCache.

(* ================================================================== *)
(** ** Parts of the routes *)
(* ================================================================== *)

(** The number a request asks for, as the route reads it. *)
Definition requestedLimit (limit : option string) : option Z :=
  match limit with
  | Some text => stringToNumber text
  | None => Some 9%Z
  end.

(** What [/api/audio-features/:trackId] sends: the estimate with its tags,
    or an error with its details and the identifier of the request. *)
Inductive AudioFeaturesBody : Type :=
| FeaturesBody (features : EstimatedFeatures)
| FeaturesError (error details trackId : string).

(** [app.get('/api/audio-features/:trackId', ...)]: status and body. *)
Definition audioFeaturesRoute (catalog : Catalog) (rnd : nat -> Q)
    (trackId : string) : IO (Z * AudioFeaturesBody) :=
  tryCatch
    (token <- getSpotifyToken catalog ;;
     trackResponse <- fetchTrack catalog trackId ;;
     if negb (responseOk trackResponse) then
       throw ("Failed to get track info: " ++
              numberToString (Some (responseStatus trackResponse)))
     else
       trackData <- responseJson trackResponse ;;
       let features := generateIntelligentFeatures rnd trackData in
       io_ret (200%Z, FeaturesBody features))
    (fun message =>
       io_ret (500%Z,
               FeaturesError "Failed to get audio features" message trackId)).

(* ================================================================== *)
(** * Properties *)
(* ================================================================== *)

(** ** Rounding and clamping *)

Lemma Math_round_inject (z : Z) : Math_round (inject_Z z) = z.
Proof.
  unfold Math_round.
  assert (Hlo : (z <= Qfloor (inject_Z z + (1 # 2)))%Z).
  { rewrite <- (Qfloor_Z z) at 1. apply Qfloor_resp_le. lra. }
  assert (Hhi : (Qfloor (inject_Z z + (1 # 2)) < z + 1)%Z).
  { rewrite Zlt_Qlt. eapply Qle_lt_trans; [apply Qfloor_le|].
    rewrite inject_Z_plus. change (inject_Z 1) with 1. lra. }
  lia.
Qed.

Lemma Math_round_mono (x y : Q) : x <= y -> (Math_round x <= Math_round y)%Z.
Proof. intros H. apply Qfloor_resp_le. lra. Qed.

(** Rounding to three decimals keeps a value between two bounds that are
    themselves multiples of [1/1000]. *)
Lemma round3_between (a b : Z) (x : Q) :
  a # 1000 <= x <= b # 1000 -> a # 1000 <= round3 x <= b # 1000.
Proof.
  rewrite (Qmake_Qdiv a 1000), (Qmake_Qdiv b 1000).
  change (inject_Z (Z.pos 1000)) with 1000.
  intros [Ha Hb]. unfold round3.
  assert (Ha' : inject_Z a <= x * 1000).
  { assert (E : inject_Z a == inject_Z a / 1000 * 1000) by field.
    rewrite E. apply Qmult_le_compat_r; [assumption | discriminate]. }
  assert (Hb' : x * 1000 <= inject_Z b).
  { assert (E : inject_Z b == inject_Z b / 1000 * 1000) by field.
    rewrite E. apply Qmult_le_compat_r; [assumption | discriminate]. }
  apply Math_round_mono in Ha'. apply Math_round_mono in Hb'.
  rewrite Math_round_inject in Ha', Hb'.
  rewrite Zle_Qle in Ha', Hb'.
  split; apply Qmult_le_compat_r; try assumption; discriminate.
Qed.

Lemma round3_unit (x : Q) : 0 <= x <= 1 -> 0 <= round3 x <= 1.
Proof.
  intros H. destruct (round3_between 0 1000 x) as [Hlo Hhi]; lra.
Qed.

Lemma round3_tempo (x : Q) : 60 <= x <= 200 -> 60 <= round3 x <= 200.
Proof.
  intros H. destruct (round3_between 60000 200000 x) as [Hlo Hhi]; lra.
Qed.

Lemma clamp_between (lo hi x : Q) :
  lo <= hi -> lo <= Qmax lo (Qmin hi x) <= hi.
Proof.
  intros H. split.
  - apply Q.le_max_l.
  - apply Q.max_lub; [assumption | apply Q.le_min_l].
Qed.

(** ** The estimator stays in range *)

(** The jitter loop followed by the rounding loop, on any vector. *)
Lemma jitter_round_in_range (rnd : nat -> Q) (f : Features) (n : nat) :
  fieldsInRange
    (fold_left roundKey featureKeys
       (fst (fold_left (jitterKey rnd) featureKeys (f, n)))).
Proof.
  destruct f as [a d e i li lo s t va].
  lazy beta iota zeta delta
    [fold_left featureKeys jitterKey roundKey setField getField fst
     fieldsInRange acousticness danceability energy instrumentalness liveness
     speechiness valence tempo].
  repeat split;
    first [ apply round3_unit | apply round3_tempo ];
    apply clamp_between; lra.
Qed.

(** C1. For every track object, also one whose popularity, duration or
    album is absent, and for every stream of values of [Math.random], the
    vector [generateIntelligentFeatures] returns has acousticness,
    danceability, energy, instrumentalness, liveness, speechiness and
    valence in [0,1] and tempo in [60,200]. *)
Theorem generateIntelligentFeatures_in_range (rnd : nat -> Q)
    (trackData : Track) :
  fieldsInRange (values (generateIntelligentFeatures rnd trackData)).
Proof.
  unfold generateIntelligentFeatures.
  destruct (adjustFeatures rnd trackData) as [f n].
  pose proof (jitter_round_in_range rnd f n) as H.
  destruct (fold_left (jitterKey rnd) featureKeys (f, n)) as [f' n'].
  exact H.
Qed.

(** The defaults of the estimator: a track without popularity, duration
    and album is estimated like the same track with popularity 50, a
    duration of 180000 ms and an album with an empty name. *)
Lemma generateIntelligentFeatures_defaults (rnd : nat -> Q)
    (trackData : Track) :
  popularity trackData = None ->
  duration_ms trackData = None ->
  album trackData = None ->
  generateIntelligentFeatures rnd trackData
  = generateIntelligentFeatures rnd
      {| id := id trackData; name := name trackData;
         artists0 := artists0 trackData;
         album := Some {| album_name := EmptyString; release_date := None |};
         genres := genres trackData;
         popularity := Some 50%Z; duration_ms := Some 180000%Z;
         explicit := explicit trackData; preview_url := preview_url trackData;
         _strategy := _strategy trackData;
         _similarity := _similarity trackData |}.
Proof.
  intros Hp Hd Ha. unfold generateIntelligentFeatures.
  match goal with
  | |- context [adjustFeatures rnd ?t] =>
      match t with
      | trackData => fail 1
      | _ => replace (adjustFeatures rnd t) with (adjustFeatures rnd trackData)
      end
  end; [reflexivity|].
  lazy beta delta [adjustFeatures]. rewrite Hp, Hd, Ha. reflexivity.
Qed.

(** ** Loudness *)

Lemma round3_compat (x y : Q) : x == y -> round3 x == round3 y.
Proof.
  intros H. unfold round3, Math_round.
  assert (E : Qfloor (x * 1000 + (1 # 2)) = Qfloor (y * 1000 + (1 # 2))).
  { apply Qfloor_comp. rewrite H. reflexivity. }
  rewrite E. reflexivity.
Qed.

(** Substitutes the outermost [let] of the goal, and only that one. *)
Ltac zeta_head :=
  match goal with
  | |- context C [let x := ?a in @?b x] =>
      let b' := eval cbv beta in (b a) in
      let G := context C [b'] in
      change G
  end.

(** No heuristic assigns to [loudness]: it is the baseline when the jitter
    starts. *)
Lemma adjustFeatures_loudness (rnd : nat -> Q) (trackData : Track) :
  loudness (fst (adjustFeatures rnd trackData)) = -8.0.
Proof.
  lazy beta delta [adjustFeatures].
  do 7 zeta_head.
  repeat match goal with
         | |- context [if ?b then _ else _] => destruct b
         end; reflexivity.
Qed.

(** The jitter clamps a loudness of [-8] to [0], which the rounding keeps. *)
Lemma jitter_round_loudness (rnd : nat -> Q) (f : Features) (n : nat) :
  unitStream rnd ->
  loudness f = -8.0 ->
  loudness (fold_left roundKey featureKeys
              (fst (fold_left (jitterKey rnd) featureKeys (f, n)))) == 0.
Proof.
  intros Hrnd Hlo.
  destruct f as [a d e i li lo s t va]. lazy beta iota delta [loudness] in Hlo.
  subst lo.
  lazy beta iota zeta delta
    [fold_left featureKeys jitterKey roundKey setField getField fst loudness].
  pose proof (Hrnd (S (S (S (S (S n)))))) as Hr.
  set (r := rnd (S (S (S (S (S n)))))) in *.
  assert (E : Qmax 0 (Qmin 1 (-8.0 + (r - 0.5) * 0.1)) == 0).
  { apply Q.max_l. eapply Qle_trans; [apply Q.le_min_r | lra]. }
  rewrite (round3_compat _ _ E). reflexivity.
Qed.

(** C10. For every track object and every stream of values of
    [Math.random] in [0,1), the loudness of the returned vector is 0: the
    baseline -8.0 is never adjusted, and the jitter loop clamps loudness,
    like every field other than tempo, into [0,1] before the rounding. *)
Theorem generateIntelligentFeatures_loudness_zero (rnd : nat -> Q)
    (trackData : Track) :
  unitStream rnd ->
  loudness (values (generateIntelligentFeatures rnd trackData)) == 0.
Proof.
  intros Hrnd. unfold generateIntelligentFeatures.
  pose proof (adjustFeatures_loudness rnd trackData) as Hlo.
  destruct (adjustFeatures rnd trackData) as [f n]. cbn [fst] in Hlo.
  pose proof (jitter_round_loudness rnd f n Hrnd Hlo) as H.
  destruct (fold_left (jitterKey rnd) featureKeys (f, n)) as [f' n'].
  exact H.
Qed.

Lemma generateIntelligentFeatures_loudness_zero_witness :
  unitStream halfStream /\
  loudness (values (generateIntelligentFeatures halfStream seedTrack)) == 0.
Proof.
  assert (H : unitStream halfStream).
  { intros i. unfold halfStream. split; [discriminate | reflexivity]. }
  split; [exact H|].
  exact (generateIntelligentFeatures_loudness_zero halfStream seedTrack H).
Defined.

(** The scenario of the specification: "Happy Dance Party" by "DJ Test",
    popularity 80, 200000 ms, with [Math.random] fixed at 0.5. *)
Example seedTrack_features :
  values (generateIntelligentFeatures halfStream seedTrack)
  = {| acousticness := Qmake 300 1000; danceability := Qmake 800 1000;
       energy := Qmake 800 1000; instrumentalness := Qmake 100 1000;
       liveness := Qmake 100 1000; loudness := Qmake 0 1000;
       speechiness := Qmake 50 1000; tempo := Qmake 150000 1000;
       valence := Qmake 800 1000 |}.
Proof. vm_compute. reflexivity. Qed.

(** ** The similarity score *)

Lemma scorable_inv (candidate seed : Track) :
  scorable candidate seed = true ->
  exists pc ps dc ds : Z,
    popularity candidate = Some pc /\ popularity seed = Some ps /\
    duration_ms candidate = Some dc /\ duration_ms seed = Some ds /\
    (0 <= pc <= 100)%Z /\ (0 <= ps <= 100)%Z /\ (0 < ds)%Z.
Proof.
  unfold scorable, popularityInRange.
  destruct (popularity candidate) as [pc|], (popularity seed) as [ps|],
    (duration_ms candidate) as [dc|], (duration_ms seed) as [ds|];
    rewrite ?andb_true_iff, ?andb_false_r; try (intuition discriminate).
  rewrite !Z.leb_le, Z.ltb_lt. intros [[[? ?] [? ?]] ?].
  exists pc, ps, dc, ds. repeat split; auto.
Qed.

Lemma calculateSimilarityScore_value (targetFeatures : Features)
    (candidate seed : Track) :
  scorable candidate seed = true ->
  calculateSimilarityScore targetFeatures candidate seed
  = Num (scoreValue candidate seed).
Proof.
  intros H. destruct (scorable_inv _ _ H)
    as (pc & ps & dc & ds & Hpc & Hps & Hdc & Hds & _ & _ & Hpos).
  unfold calculateSimilarityScore, scoreValue.
  rewrite Hpc, Hps, Hdc, Hds.
  assert (Hgt : (inject_Z ds ?= 0) = Gt).
  { apply Qgt_alt. change 0 with (inject_Z 0). rewrite <- Zlt_Qlt. exact Hpos. }
  lazy beta iota zeta delta
    [toNumber valueOf num_sub num_add num_neg num_abs num_div num_mul num_min
     num_max].
  rewrite Hgt. change (100 ?= 0) with Gt.
  destruct (String.eqb _ _), (truthy _), (strictEqual _ _); reflexivity.
Qed.





(** The code divides the popularity difference by 100 and does not cap the
    quotient; the cap of the specification is reached only by popularities
    that no catalog track has.  With a popularity of 300 against 0 the code
    subtracts 0.3 where the formula subtracts 0.1. *)
Example popularity_cap_out_of_range :
  let far := sampleTrack "z" "Far" "Someone Else" 300 200000 None in
  let seed := sampleTrack "seed" "Near" "DJ Test" 0 200000 None in
  scorable far seed = false /\
  num_eq (calculateSimilarityScore baseFeatures far seed) (Num 0.75) /\
  specSimilarityScore far seed == 0.95.
Proof. repeat split; vm_compute; reflexivity. Qed.




(** ** Deduplication *)


Lemma removeDuplicatesFrom_sublist (seen : gset string) (tracks : list Track) :
  removeDuplicatesFrom seen tracks `sublist_of` tracks.
Proof.
  revert seen. induction tracks as [|t rest IH]; intros seen; simpl.
  - constructor.
  - case_bool_decide.
    + apply sublist_cons, IH.
    + apply sublist_skip, IH.
Qed.

(** A kept track has a key that was not seen before. *)
Lemma removeDuplicatesFrom_fresh (seen : gset string) (tracks : list Track)
    (t : Track) :
  t ∈ removeDuplicatesFrom seen tracks -> dedupKey t ∉ seen.
Proof.
  revert seen. induction tracks as [|u rest IH]; intros seen; simpl.
  - intros H. inversion H.
  - case_bool_decide as Hk.
    + apply IH.
    + intros [->|H]%elem_of_cons; [assumption|].
      apply IH in H. set_solver.
Qed.

Lemma removeDuplicatesFrom_NoDup (seen : gset string) (tracks : list Track) :
  NoDup (dedupKey <$> removeDuplicatesFrom seen tracks).
Proof.
  revert seen. induction tracks as [|u rest IH]; intros seen; simpl.
  - constructor.
  - case_bool_decide as Hk; [apply IH|].
    rewrite fmap_cons. apply NoDup_cons. split; [|apply IH].
    intros (t & Heq & Hin)%list_elem_of_fmap.
    apply removeDuplicatesFrom_fresh in Hin. set_solver.
Qed.




(** The key joins title and artist with a hyphen, so a hyphen inside a
    title or an artist name can make two different pairs share one key: the
    second of these two candidates is dropped. *)
Example dedupKey_hyphen :
  let first := sampleTrack "x" "Up-Tempo" "Mix" 50 180000 None in
  let second := sampleTrack "y" "Up" "Tempo-Mix" 50 180000 None in
  dedupKey first = dedupKey second /\
  removeDuplicateTracks [first; second] = [first].
Proof. split; vm_compute; reflexivity. Qed.

(** ** Ranking *)

Lemma insertSorted_Permutation {A : Type} (compare : A -> A -> number)
    (x : A) (l : list A) :
  Permutation (insertSorted compare x l) (x :: l).
Proof.
  induction l as [|y rest IH]; simpl.
  - reflexivity.
  - destruct (num_gtb0 (compare x y)).
    + rewrite IH. apply perm_swap.
    + reflexivity.
Qed.

Lemma sortWith_Permutation {A : Type} (compare : A -> A -> number)
    (l : list A) :
  Permutation (sortWith compare l) l.
Proof.
  induction l as [|x rest IH]; simpl.
  - reflexivity.
  - rewrite insertSorted_Permutation. apply perm_skip, IH.
Qed.

(** The comparator puts [x] after [y] exactly when [y] scores more. *)
Lemma bySimilarity_after (x y : Track) :
  hasNumericScore x = true -> hasNumericScore y = true ->
  if num_gtb0 (bySimilarity x y)
  then scoreGeb y x = true /\ scoreGeb x y = false
  else scoreGeb x y = true.
Proof.
  unfold hasNumericScore, bySimilarity, scoreGeb.
  destruct (similarityOf x) as [qx| | |], (similarityOf y) as [qy| | |];
    try discriminate.
  intros _ _. simpl.
  destruct (qy + - qx ?= 0) eqn:E.
  - apply Qle_bool_iff. apply Qeq_alt in E. lra.
  - apply Qle_bool_iff. apply Qlt_alt in E. lra.
  - apply Qgt_alt in E. split.
    + apply Qle_bool_iff. lra.
    + apply not_true_iff_false. rewrite Qle_bool_iff. lra.
Qed.

Lemma scoreGeb_trans (a b c : Track) :
  scoreGeb a b = true -> scoreGeb b c = true -> scoreGeb a c = true.
Proof.
  unfold scoreGeb.
  destruct (similarityOf a), (similarityOf b), (similarityOf c);
    try discriminate.
  rewrite !Qle_bool_iff. intros. lra.
Qed.

Lemma insertSorted_sorted (x : Track) (l : list Track) :
  hasNumericScore x = true ->
  forallb hasNumericScore l = true ->
  sortedByb scoreGeb l = true ->
  sortedByb scoreGeb (insertSorted bySimilarity x l) = true.
Proof.
  intros Hx. induction l as [|y rest IH]; simpl; [reflexivity|].
  rewrite !andb_true_iff. intros [Hy Hrest] [Hall Hsorted].
  pose proof (bySimilarity_after x y Hx Hy) as Hcmp.
  destruct (num_gtb0 (bySimilarity x y)); simpl; rewrite andb_true_iff.
  - split; [|apply IH; assumption].
    rewrite forallb_forall. intros z Hz.
    apply (Permutation_in _ (insertSorted_Permutation bySimilarity x rest))
      in Hz.
    destruct Hz as [<-|Hz]; [apply Hcmp|].
    rewrite forallb_forall in Hall. apply Hall, Hz.
  - rewrite Hcmp. simpl. split.
    + rewrite forallb_forall in Hall |- *. intros z Hz.
      apply (scoreGeb_trans x y z Hcmp), Hall, Hz.
    + rewrite Hall, Hsorted. reflexivity.
Qed.

Lemma insertSorted_numeric (x : Track) (l : list Track) :
  hasNumericScore x = true ->
  forallb hasNumericScore l = true ->
  forallb hasNumericScore (insertSorted bySimilarity x l) = true.
Proof.
  intros Hx Hl. rewrite forallb_forall in Hl |- *. intros z Hz.
  apply (Permutation_in _ (insertSorted_Permutation bySimilarity x l)) in Hz.
  destruct Hz as [<-|Hz]; auto.
Qed.

Lemma sortWith_sorted (l : list Track) :
  forallb hasNumericScore l = true ->
  forallb hasNumericScore (sortWith bySimilarity l) = true /\
  sortedByb scoreGeb (sortWith bySimilarity l) = true.
Proof.
  induction l as [|x rest IH]; simpl; [auto|].
  rewrite andb_true_iff. intros [Hx Hrest]. destruct (IH Hrest) as [Hn Hs].
  split.
  - apply insertSorted_numeric; assumption.
  - apply insertSorted_sorted; assumption.
Qed.

(** Inserting moves [x] past tracks of strictly greater score only, so the
    tracks of any one score keep their order. *)
Lemma insertSorted_filter (q : Q) (x : Track) (l : list Track) :
  List.filter (scoreIs q) (insertSorted bySimilarity x l)
  = List.filter (scoreIs q) (x :: l).
Proof.
  induction l as [|y rest IH]; [reflexivity|].
  cbn [insertSorted].
  destruct (num_gtb0 (bySimilarity x y)) eqn:E; [|reflexivity].
  cbn [List.filter]. rewrite IH. cbn [List.filter].
  destruct (scoreIs q x) eqn:Ex, (scoreIs q y) eqn:Ey; try reflexivity.
  exfalso. revert E Ex Ey. unfold bySimilarity, scoreIs.
  destruct (similarityOf x) as [qx| | |], (similarityOf y) as [qy| | |];
    try discriminate.
  simpl. rewrite !Qeq_bool_iff. intros E Ex Ey.
  destruct (qy + - qx ?= 0) eqn:Ec; try discriminate.
  apply Qgt_alt in Ec. lra.
Qed.

Lemma sortWith_filter (q : Q) (l : list Track) :
  List.filter (scoreIs q) (sortWith bySimilarity l) = List.filter (scoreIs q) l.
Proof.
  induction l as [|x rest IH]; [reflexivity|].
  cbn [sortWith fold_right]. fold (sortWith bySimilarity rest).
  rewrite insertSorted_filter. cbn [List.filter]. rewrite IH. reflexivity.
Qed.

(** C5, as the code has it. The ranking is a stable sort by similarity
    score alone: for candidates whose scores are numbers, the output is a
    permutation of the input in descending order of score, and the
    candidates of any one score keep the order they had in the input.
    Neither the strategy of origin nor the identifier is compared. *)
Theorem sortWith_bySimilarity_stable (l : list Track) :
  forallb hasNumericScore l = true ->
  Permutation (sortWith bySimilarity l) l /\
  sortedByb scoreGeb (sortWith bySimilarity l) = true /\
  (forall q : Q,
      List.filter (scoreIs q) (sortWith bySimilarity l)
      = List.filter (scoreIs q) l).
Proof.
  intros H. split; [apply sortWith_Permutation|]. split.
  - apply sortWith_sorted, H.
  - intros q. apply sortWith_filter.
Qed.

Lemma sortWith_bySimilarity_stable_witness :
  let l := [setSimilarity (Num 0.9) trackA; setSimilarity (Num 1.15) trackB] in
  forallb hasNumericScore l = true /\
  Permutation (sortWith bySimilarity l) l /\
  sortedByb scoreGeb (sortWith bySimilarity l) = true /\
  (forall q : Q,
      List.filter (scoreIs q) (sortWith bySimilarity l)
      = List.filter (scoreIs q) l).
Proof.
  split; [reflexivity|].
  apply (sortWith_bySimilarity_stable
           [setSimilarity (Num 0.9) trackA; setSimilarity (Num 1.15) trackB]).
  reflexivity.
Defined.

(** C5 as the specification states it fails. The genre search of
    [sampleCatalog] returns the track "b" before the track "a"; both get
    the same score from the same strategy, and the ranking leaves "b"
    first, against the tie-break by identifier.  The same two candidates
    given in the other order are ranked in the other order. *)
Lemma ranking_ignores_identifier :
  (exists ranked trace,
      findSimilarTracksViaSpotify sampleCatalog seedTrack seedFeatures "token" []
      = (Returned ranked, trace) /\
      List.map id ranked = ["b"; "a"] /\
      sortedByb specRankLeb ranked = false) /\
  (let a := setSimilarity (Num 1.05) trackA in
   let b := setSimilarity (Num 1.05) trackB in
   sortWith bySimilarity [a; b] = [a; b] /\
   sortWith bySimilarity [b; a] = [b; a]).
Proof.
  split.
  - eexists _, _. split; [vm_compute; reflexivity|].
    split; vm_compute; reflexivity.
  - split; vm_compute; reflexivity.
Qed.

(** ** The aggregation *)

Lemma Forall_sublist {A : Type} (P : A -> Prop) (l1 l2 : list A) :
  l1 `sublist_of` l2 -> Forall P l2 -> Forall P l1.
Proof.
  induction 1 as [|x l1 l2 _ IH|x l1 l2 _ IH]; intros H.
  - constructor.
  - inversion H; subst. constructor; auto.
  - inversion H; subst. auto.
Qed.

(** One turn of the loop never throws: it appends the candidates of the
    strategy, none when the strategy fails, and its two events. *)
Lemma tryStrategy_absorbed (catalog : Catalog) (originalTrack : Track)
    (audioFeatures : Features) (strategy : SearchStrategy)
    (allCandidates : list Track) (trace : list Event) :
  tryCatch
    (tryStrategy catalog originalTrack audioFeatures strategy allCandidates)
    (fun _ => io_ret allCandidates) trace
  = (Returned
       (allCandidates
        ++ strategyCandidates catalog originalTrack audioFeatures strategy)%list,
     (trace ++ strategyEvents strategy)%list).
Proof.
  unfold tryCatch, tryStrategy, strategyCandidates, strategyEvents, io_bind,
    emit, throw, settle, io_ret.
  destruct (searchResponse catalog (queryText strategy)) as [m|ok st [items|m]];
    [|destruct ok..]; simpl; rewrite <- ?app_assoc, ?app_nil_r; reflexivity.
Qed.

Lemma executeStrategies_result (catalog : Catalog) (originalTrack : Track)
    (audioFeatures : Features) (strategies : list SearchStrategy)
    (allCandidates : list Track) (trace : list Event) :
  executeStrategies catalog originalTrack audioFeatures strategies
    allCandidates trace
  = (Returned
       (allCandidates
        ++ flat_map (strategyCandidates catalog originalTrack audioFeatures)
             strategies)%list,
     (trace ++ flat_map strategyEvents strategies)%list).
Proof.
  revert allCandidates trace.
  induction strategies as [|strategy rest IH]; intros allCandidates trace.
  - simpl. unfold io_ret. rewrite !app_nil_r. reflexivity.
  - cbn [executeStrategies flat_map]. unfold io_bind at 1.
    rewrite tryStrategy_absorbed, IH, <- !app_assoc. reflexivity.
Qed.

Lemma findSimilarTracksViaSpotify_result (catalog : Catalog)
    (originalTrack : Track) (seedAlbum : Album) (audioFeatures : Features)
    (token : string) (trace : list Event) :
  album originalTrack = Some seedAlbum ->
  findSimilarTracksViaSpotify catalog originalTrack audioFeatures token trace
  = (Returned (rankedCandidates catalog originalTrack seedAlbum audioFeatures),
     (trace
      ++ flat_map strategyEvents
           (searchStrategies originalTrack seedAlbum audioFeatures))%list).
Proof.
  intros Halbum. unfold findSimilarTracksViaSpotify. rewrite Halbum.
  unfold io_bind. rewrite executeStrategies_result. reflexivity.
Qed.

Lemma strategyCandidates_not_seed (catalog : Catalog) (originalTrack : Track)
    (audioFeatures : Features) (strategy : SearchStrategy) :
  Forall (fun track => id track <> id originalTrack)
    (strategyCandidates catalog originalTrack audioFeatures strategy).
Proof.
  unfold strategyCandidates.
  destruct (searchResponse catalog (queryText strategy)) as [m|[] st [items|m]];
    try constructor.
  apply Forall_map, List.Forall_forall. intros track [_ Hne]%filter_In.
  simpl. apply negb_true_iff, String.eqb_neq in Hne. exact Hne.
Qed.

Lemma slice0_sublist {A : Type} (l : list A) (end_ : option Z) :
  slice0 l end_ `sublist_of` l.
Proof.
  unfold slice0. destruct end_ as [e|]; [|apply sublist_nil_l].
  destruct (e <? 0)%Z; apply sublist_take.
Qed.

(** C6. For every seed track, every catalog and whatever the searches of
    the strategies return, also the seed itself, no candidate of the list
    [findSimilarTracksViaSpotify] returns has the identifier of the seed;
    and the call does return a list, unless the seed has no album. *)
Theorem findSimilarTracksViaSpotify_excludes_seed (catalog : Catalog)
    (originalTrack : Track) (audioFeatures : Features) (token : string)
    (trace : list Event) :
  match
    fst (findSimilarTracksViaSpotify catalog originalTrack audioFeatures token
           trace)
  with
  | Returned ranked =>
      Forall (fun track => id track <> id originalTrack) ranked
  | Thrown _ => album originalTrack = None
  end.
Proof.
  destruct (album originalTrack) as [seedAlbum|] eqn:Halbum.
  - rewrite (findSimilarTracksViaSpotify_result _ _ _ _ _ _ Halbum).
    cbv beta iota delta [fst]. unfold rankedCandidates.
    eapply Forall_sublist; [apply slice0_sublist|].
    eapply Permutation_Forall; [symmetry; apply sortWith_Permutation|].
    eapply Forall_sublist; [apply removeDuplicatesFrom_sublist|].
    apply Forall_flat_map, Forall_forall. intros strategy _.
    apply strategyCandidates_not_seed.
  - unfold findSimilarTracksViaSpotify. rewrite Halbum. reflexivity.
Qed.

(** The genre search of [sampleCatalog] returns the seed between two other
    tracks; the seed is dropped. *)
Example sampleCatalog_drops_seed :
  exists ranked trace,
    findSimilarTracksViaSpotify sampleCatalog seedTrack seedFeatures "token" []
    = (Returned ranked, trace) /\
    List.map id ranked = ["b"; "a"].
Proof. eexists _, _. split; vm_compute; reflexivity. Qed.

(** ** The routes *)

Lemma strategyFails_no_candidates (catalog : Catalog) (originalTrack : Track)
    (audioFeatures : Features) (strategy : SearchStrategy) :
  strategyFails catalog strategy = true ->
  strategyCandidates catalog originalTrack audioFeatures strategy = [].
Proof.
  unfold strategyFails, strategyCandidates.
  destruct (searchResponse catalog (queryText strategy)) as [m|[] st [items|m]];
    intros H; try reflexivity; discriminate.
Qed.

Lemma all_fail_no_candidates (catalog : Catalog) (originalTrack : Track)
    (audioFeatures : Features) (strategies : list SearchStrategy) :
  forallb (strategyFails catalog) strategies = true ->
  flat_map (strategyCandidates catalog originalTrack audioFeatures) strategies
  = [].
Proof.
  induction strategies as [|strategy rest IH]; simpl; [reflexivity|].
  rewrite andb_true_iff. intros [Hs Hrest].
  rewrite (strategyFails_no_candidates _ _ _ _ Hs), (IH Hrest). reflexivity.
Qed.

(** C7. When the token is obtained and the seed track is fetched (and has
    its album), [/api/similar-song/:trackId] answers with status 200
    whatever the searches of the strategies do: the list it returns is the
    ranking of the candidates of the strategies, a failed strategy (query
    thrown, status not a success, body not readable) has no candidates, and
    when every strategy fails the list is empty. *)
Theorem similarSongRoute_absorbs_failures (catalog : Catalog) (rnd : nat -> Q)
    (trackId token : string) (st : Z) (seed : Track) (seedAlbum : Album) :
  tokenOutcome catalog = Returned token ->
  trackResponse catalog trackId = Resolved true st (Returned seed) ->
  album seed = Some seedAlbum ->
  let audioFeatures := getIntelligentFeatures rnd seed in
  let strategies := searchStrategies seed seedAlbum audioFeatures in
  let ranked := rankedCandidates catalog seed seedAlbum audioFeatures in
  (exists summary top pipeline trace,
      similarSongRoute catalog rnd trackId []
      = (Returned
           {| status := 200;
              body := SimilarSongBody summary audioFeatures top ranked
                        pipeline |},
         trace) /\
      top `sublist_of` ranked) /\
  (forall strategy,
      strategyFails catalog strategy = true ->
      strategyCandidates catalog seed audioFeatures strategy = []) /\
  (forallb (strategyFails catalog) strategies = true -> ranked = []).
Proof.
  intros Htoken Htrack Halbum audioFeatures strategies ranked.
  split; [|split].
  - unfold similarSongRoute, getSpotifyToken, fetchTrack.
    rewrite Htoken, Htrack.
    lazy beta iota zeta delta
      [tryCatch io_bind emit settle io_ret throw responseOk responseJson negb].
    fold audioFeatures.
    rewrite (findSimilarTracksViaSpotify_result _ _ _ _ _ _ Halbum).
    fold strategies ranked. rewrite Halbum.
    eexists _, _, _, _. split; [reflexivity|].
    destruct (0 <? length ranked)%nat;
      [apply slice0_sublist | apply sublist_nil_l].
  - intros strategy. apply strategyFails_no_candidates.
  - intros Hall. unfold ranked, rankedCandidates. fold strategies.
    rewrite (all_fail_no_candidates _ _ _ _ Hall). reflexivity.
Qed.

Lemma similarSongRoute_absorbs_failures_witness :
  tokenOutcome failingCatalog = Returned "token" /\
  trackResponse failingCatalog "seed" = Resolved true 200 (Returned seedTrack) /\
  album seedTrack = Some sampleAlbum /\
  exists summary top pipeline trace,
    similarSongRoute failingCatalog halfStream "seed" []
    = (Returned
         {| status := 200;
            body := SimilarSongBody summary seedFeatures top [] pipeline |},
       trace).
Proof.
  repeat (split; [reflexivity|]).
  destruct (similarSongRoute_absorbs_failures failingCatalog halfStream
              "seed" "token" 200 seedTrack sampleAlbum
              eq_refl eq_refl eq_refl)
    as [(summary & top & pipeline & trace & Hrun & _) [_ Hempty]].
  rewrite (Hempty eq_refl) in Hrun.
  exists summary, top, pipeline, trace. exact Hrun.
Defined.

(** A failure to obtain the token or to fetch the seed is answered with
    status 500, before any search. *)
Lemma similarSongRoute_seed_failure (catalog : Catalog) (rnd : nat -> Q)
    (trackId : string) :
  (exists message, tokenOutcome catalog = Thrown message) \/
  (exists message, trackResponse catalog trackId = Rejected message) \/
  (exists st json, trackResponse catalog trackId = Resolved false st json) \/
  (exists st message,
      trackResponse catalog trackId = Resolved true st (Thrown message)) ->
  exists details trace,
    similarSongRoute catalog rnd trackId []
    = (Returned
         {| status := 500;
            body := ErrorBody "Failed to find similar song" (Some details)
                      (Some trackId) |},
       trace) /\
    Forall (fun e => forall q, e <> SearchIssued q) trace.
Proof.
  unfold similarSongRoute, getSpotifyToken, fetchTrack.
  intros [[m H]|[[m H]|[(st & json & H)|(st & m & H)]]].
  - rewrite H.
    lazy beta iota zeta delta [tryCatch io_bind emit settle io_ret throw app].
    eexists _, _. split; [reflexivity|].
    repeat constructor; discriminate.
  - destruct (tokenOutcome catalog) as [token|m'];
      rewrite ?H;
      lazy beta iota zeta delta [tryCatch io_bind emit settle io_ret throw app];
      (eexists _, _; split; [reflexivity|]);
      repeat constructor; discriminate.
  - destruct (tokenOutcome catalog) as [token|m'];
      rewrite ?H;
      lazy beta iota zeta delta
        [tryCatch io_bind emit settle io_ret throw app responseOk negb];
      (eexists _, _; split; [reflexivity|]);
      repeat constructor; discriminate.
  - destruct (tokenOutcome catalog) as [token|m'];
      rewrite ?H;
      lazy beta iota zeta delta
        [tryCatch io_bind emit settle io_ret throw app responseOk negb
         responseJson];
      (eexists _, _; split; [reflexivity|]);
      repeat constructor; discriminate.
Qed.

(** The first two strategies are always there. *)
Lemma searchStrategies_two (originalTrack : Track) (seedAlbum : Album)
    (audioFeatures : Features) :
  exists first second rest,
    searchStrategies originalTrack seedAlbum audioFeatures
    = first :: second :: rest.
Proof.
  unfold searchStrategies. cbn [List.filter query truthy append].
  eexists _, _, _. reflexivity.
Qed.

(** C9, as the code has it. During one call of
    [findSimilarTracksViaSpotify] the searches of the strategies are issued
    one at a time, in the order of the strategies: the trace of the call is,
    strategy after strategy, the issue of its search followed by its
    settlement, so every search but the first is issued after the search
    before it has settled, and the trace is never a fan-out. *)
Theorem findSimilarTracksViaSpotify_sequential (catalog : Catalog)
    (originalTrack : Track) (seedAlbum : Album) (audioFeatures : Features)
    (token : string) :
  album originalTrack = Some seedAlbum ->
  snd (findSimilarTracksViaSpotify catalog originalTrack audioFeatures token [])
  = flat_map strategyEvents
      (searchStrategies originalTrack seedAlbum audioFeatures) /\
  fannedOut
    (snd (findSimilarTracksViaSpotify catalog originalTrack audioFeatures
            token []))
  = false.
Proof.
  intros Halbum.
  rewrite (findSimilarTracksViaSpotify_result _ _ _ _ _ _ Halbum).
  cbn [snd app]. split; [reflexivity|].
  destruct (searchStrategies_two originalTrack seedAlbum audioFeatures)
    as (first & second & rest & ->).
  reflexivity.
Qed.

Lemma findSimilarTracksViaSpotify_sequential_witness :
  album seedTrack = Some sampleAlbum /\
  snd (findSimilarTracksViaSpotify sampleCatalog seedTrack seedFeatures
         "token" [])
  = flat_map strategyEvents (searchStrategies seedTrack sampleAlbum seedFeatures) /\
  fannedOut
    (snd (findSimilarTracksViaSpotify sampleCatalog seedTrack seedFeatures
            "token" []))
  = false.
Proof.
  split; [reflexivity|].
  apply (findSimilarTracksViaSpotify_sequential sampleCatalog seedTrack
           sampleAlbum seedFeatures "token").
  reflexivity.
Defined.

(** C9 as the specification states it fails: in the call on
    [sampleCatalog] the genre search has settled before the artist search
    is issued. *)
Lemma searches_not_fanned_out :
  firstn 3
    (snd (findSimilarTracksViaSpotify sampleCatalog seedTrack seedFeatures
            "token" []))
  = [SearchIssued genreQuery; SearchSettled genreQuery;
     SearchIssued artistQuery] /\
  fannedOut
    (snd (findSimilarTracksViaSpotify sampleCatalog seedTrack seedFeatures
            "token" []))
  = false.
Proof. split; vm_compute; reflexivity. Qed.




(** The one request [/api/recommendations] rejects before any work is the
    one without [seed_tracks]. *)
Lemma recommendationsRoute_missing_seed (catalog : Catalog) (rnd : nat -> Q)
    (limit : option string) :
  rejectedBeforeWork (recommendationsRoute catalog rnd None limit []) = true.
Proof. reflexivity. Qed.

(* ================================================================== *)
(** * Further properties of the code *)
(* ================================================================== *)

(** ** The estimator: what it reads and what it can return *)

(** Opens [adjustFeatures] and splits on every test it makes. *)
Ltac adjust_cases :=
  lazy beta delta [adjustFeatures]; do 7 zeta_head;
  repeat match goal with
         | |- context [if ?b then _ else _] => destruct b
         end.

(** Replaces every [Qmax] and [Qmin] of the goal, innermost first, by its
    value in each of the two orders of its arguments. *)
Ltac no_minmax t :=
  lazymatch t with
  | context [Qmax _ _] => fail
  | context [Qmin _ _] => fail
  | _ => idtac
  end.

Ltac split_minmax :=
  repeat match goal with
         | |- context [Qmax ?a ?b] =>
             no_minmax a; no_minmax b;
             let v := fresh "v" in
             let H := fresh "H" in
             destruct (Q.max_spec a b) as [[? H]|[? H]];
             revert H; generalize (Qmax a b); intros v H
         | |- context [Qmin ?a ?b] =>
             no_minmax a; no_minmax b;
             let v := fresh "v" in
             let H := fresh "H" in
             destruct (Q.min_spec a b) as [[? H]|[? H]];
             revert H; generalize (Qmin a b); intros v H
         end.

(** The estimator reads the title, the first artist, the popularity and
    the duration of a track, and nothing else of it: the album name and the
    genres are fetched and never used. *)
Theorem generateIntelligentFeatures_reads (rnd : nat -> Q) (a b : Track) :
  name a = name b ->
  artist_name (artists0 a) = artist_name (artists0 b) ->
  popularity a = popularity b ->
  duration_ms a = duration_ms b ->
  generateIntelligentFeatures rnd a = generateIntelligentFeatures rnd b.
Proof.
  intros Hn Ha Hp Hd. unfold generateIntelligentFeatures.
  replace (adjustFeatures rnd a) with (adjustFeatures rnd b); [reflexivity|].
  lazy beta delta [adjustFeatures]. rewrite Hn, Ha, Hp, Hd. reflexivity.
Qed.

Lemma generateIntelligentFeatures_reads_witness :
  generateIntelligentFeatures halfStream seedTrack
  = generateIntelligentFeatures halfStream
      {| id := "other id"; name := "Happy Dance Party";
         artists0 := {| artist_name := "DJ Test" |};
         album := None; genres := Some ["polka"];
         popularity := Some 80%Z; duration_ms := Some 200000%Z;
         explicit := None; preview_url := Some "url";
         _strategy := None; _similarity := None |}.
Proof.
  apply generateIntelligentFeatures_reads; reflexivity.
Defined.

Lemma adjustFeatures_heuristicRange (rnd : nat -> Q) (trackData : Track) :
  heuristicRangeb (fst (adjustFeatures rnd trackData)) = true.
Proof. adjust_cases; lazy; reflexivity. Qed.

Lemma adjustFeatures_tempo (rnd : nat -> Q) (trackData : Track) :
  unitStream rnd ->
  90 <= tempo (fst (adjustFeatures rnd trackData)) <= 170.
Proof.
  intros Hrnd. pose proof (Hrnd 0%nat) as Hr.
  remember (tempo (fst (adjustFeatures rnd trackData))) as x eqn:E.
  revert E.
  adjust_cases;
    lazy beta iota zeta delta [fst setField tempo baseFeatures];
    intros ->; split_minmax; lra.
Qed.

(** Rounding to three decimals keeps a value between two bounds with at
    most three decimals. *)
Lemma round3_range (lo hi x : Q) :
  inject_Z (Qfloor (lo * 1000)) == lo * 1000 ->
  inject_Z (Qfloor (hi * 1000)) == hi * 1000 ->
  lo <= x <= hi -> lo <= round3 x <= hi.
Proof.
  intros Hlo Hhi Hx.
  assert (Ea : Qfloor (lo * 1000) # 1000 == lo).
  { rewrite Qmake_Qdiv. change (inject_Z (Z.pos 1000)) with 1000.
    rewrite Hlo. field. }
  assert (Eb : Qfloor (hi * 1000) # 1000 == hi).
  { rewrite Qmake_Qdiv. change (inject_Z (Z.pos 1000)) with 1000.
    rewrite Hhi. field. }
  destruct (round3_between (Qfloor (lo * 1000)) (Qfloor (hi * 1000)) x)
    as [H1 H2].
  - rewrite Ea, Eb. exact Hx.
  - rewrite Ea in H1. rewrite Eb in H2. split; assumption.
Qed.

Lemma Qbetween_spec (lo hi x : Q) :
  Qbetween lo hi x = true <-> lo <= x <= hi.
Proof.
  unfold Qbetween. rewrite andb_true_iff, !Qle_bool_iff. reflexivity.
Qed.

(** The jitter and the rounding move a field other than tempo by at most
    0.05, and tempo by at most 5. *)
Lemma jitter_round_estimateRange (rnd : nat -> Q) (f : Features) (n : nat) :
  unitStream rnd ->
  heuristicRangeb f = true ->
  90 <= tempo f <= 170 ->
  estimateRange
    (fold_left roundKey featureKeys
       (fst (fold_left (jitterKey rnd) featureKeys (f, n)))).
Proof.
  intros Hrnd Hf Ht. destruct f as [a d e i li lo s t va].
  unfold heuristicRangeb in Hf.
  lazy beta iota delta
    [acousticness danceability energy instrumentalness liveness speechiness
     valence tempo] in Hf, Ht.
  rewrite !andb_true_iff, !Qbetween_spec in Hf.
  destruct Hf as [[[[[[Ha Hd] He] Hi] Hli] Hs] Hva].
  pose proof (Hrnd n). pose proof (Hrnd (S n)). pose proof (Hrnd (S (S n))).
  pose proof (Hrnd (S (S (S n)))). pose proof (Hrnd (S (S (S (S n))))).
  pose proof (Hrnd (S (S (S (S (S (S n))))))).
  pose proof (Hrnd (S (S (S (S (S (S (S n)))))))).
  pose proof (Hrnd (S (S (S (S (S (S (S (S n))))))))).
  lazy beta iota zeta delta
    [fold_left featureKeys jitterKey roundKey setField getField fst
     estimateRange acousticness danceability energy instrumentalness liveness
     speechiness valence tempo].
  repeat match goal with
         | |- _ <= round3 _ <= _ =>
             apply round3_range;
             [reflexivity | reflexivity | split_minmax; lra]
         | |- _ /\ _ => split
         end.
Qed.

(** With [Math.random] in [0,1) the estimator returns acousticness in
    [0.25,0.75], danceability in [0.45,0.95], energy in [0.15,0.95],
    instrumentalness in [0.05,0.25], liveness in [0.05,0.15], speechiness
    in [0,0.1], valence in [0.05,0.85] and tempo in [85,175], whatever the
    track: of all the clamps of the jitter loop only the one on loudness
    ever changes a value. *)
Theorem generateIntelligentFeatures_estimateRange (rnd : nat -> Q)
    (trackData : Track) :
  unitStream rnd ->
  estimateRange (values (generateIntelligentFeatures rnd trackData)).
Proof.
  intros Hrnd. unfold generateIntelligentFeatures.
  pose proof (adjustFeatures_heuristicRange rnd trackData) as Hf.
  pose proof (adjustFeatures_tempo rnd trackData Hrnd) as Ht.
  destruct (adjustFeatures rnd trackData) as [f n].
  lazy beta iota delta [fst] in Hf, Ht.
  pose proof (jitter_round_estimateRange rnd f n Hrnd Hf Ht) as H.
  destruct (fold_left (jitterKey rnd) featureKeys (f, n)) as [f' n'].
  exact H.
Qed.

Lemma generateIntelligentFeatures_estimateRange_witness :
  unitStream halfStream /\
  estimateRange (values (generateIntelligentFeatures halfStream seedTrack)).
Proof.
  assert (H : unitStream halfStream).
  { intros i. unfold halfStream. split; [discriminate | reflexivity]. }
  split; [exact H|].
  exact (generateIntelligentFeatures_estimateRange halfStream seedTrack H).
Defined.

(** The danceability and the tempo the estimator returns, from the values
    the heuristics leave and the two values of [Math.random] used on
    them. *)
Lemma generateIntelligentFeatures_dance_tempo (rnd : nat -> Q)
    (trackData : Track) :
  let f := fst (adjustFeatures rnd trackData) in
  let n := snd (adjustFeatures rnd trackData) in
  danceability (values (generateIntelligentFeatures rnd trackData))
  = round3 (Qmax 0 (Qmin 1 (danceability f + (rnd (1 + n)%nat - 0.5) * 0.1))) /\
  tempo (values (generateIntelligentFeatures rnd trackData))
  = round3 (Qmax 60 (Qmin 200 (tempo f + (rnd (7 + n)%nat - 0.5) * 10))).
Proof.
  unfold generateIntelligentFeatures.
  destruct (adjustFeatures rnd trackData) as [f n].
  destruct f as [a d e i li lo s t va].
  lazy beta iota zeta delta
    [fold_left featureKeys jitterKey roundKey setField getField fst snd
     values danceability tempo Nat.add].
  split; reflexivity.
Qed.

Lemma adjustFeatures_dj (rnd : nat -> Q) (trackData : Track) :
  isDjArtist trackData = true ->
  Qbetween 0.8 0.9 (danceability (fst (adjustFeatures rnd trackData))) = true.
Proof.
  intros H. lazy beta zeta delta [isDjArtist] in H.
  lazy beta delta [adjustFeatures]. do 7 zeta_head. rewrite H.
  repeat match goal with
         | |- context [if ?b then _ else _] => destruct b
         end; lazy; reflexivity.
Qed.

Lemma adjustFeatures_dj_tempo (rnd : nat -> Q) (trackData : Track) :
  isDjArtist trackData = true ->
  128 <= tempo (fst (adjustFeatures rnd trackData)).
Proof.
  intros H. lazy beta zeta delta [isDjArtist] in H.
  remember (tempo (fst (adjustFeatures rnd trackData))) as x eqn:E.
  revert E.
  lazy beta delta [adjustFeatures]. do 7 zeta_head. rewrite H.
  repeat match goal with
         | |- context [if ?b then _ else _] => destruct b
         end;
    lazy beta iota zeta delta [fst setField tempo baseFeatures];
    intros ->; apply Q.le_max_r.
Qed.

(** The danceability estimated for an artist whose name contains "dj" or
    "edm". *)
Lemma dj_danceability (rnd : nat -> Q) (trackData : Track) :
  isDjArtist trackData = true ->
  unitStream rnd ->
  0.75 <= danceability (values (generateIntelligentFeatures rnd trackData))
       <= 0.95.
Proof.
  intros Hdj Hrnd.
  destruct (generateIntelligentFeatures_dance_tempo rnd trackData) as [-> _].
  pose proof (adjustFeatures_dj rnd trackData Hdj) as Hd.
  apply Qbetween_spec in Hd.
  pose proof (Hrnd (1 + snd (adjustFeatures rnd trackData))%nat).
  apply round3_range; [reflexivity | reflexivity |].
  split_minmax; lra.
Qed.

(** For an artist whose name contains "dj" or "edm", in any case of the
    letters, and [Math.random] in [0,1), the estimator returns a
    danceability in [0.75,0.95] and a tempo in [123,175], whatever the
    title, the duration and the popularity. *)
Theorem generateIntelligentFeatures_dj (rnd : nat -> Q) (trackData : Track) :
  isDjArtist trackData = true ->
  unitStream rnd ->
  0.75 <= danceability (values (generateIntelligentFeatures rnd trackData))
       <= 0.95 /\
  123 <= tempo (values (generateIntelligentFeatures rnd trackData)) <= 175.
Proof.
  intros Hdj Hrnd. split; [apply dj_danceability; assumption|].
  destruct (generateIntelligentFeatures_dance_tempo rnd trackData) as [_ ->].
  pose proof (adjustFeatures_dj_tempo rnd trackData Hdj) as Hlo.
  pose proof (adjustFeatures_tempo rnd trackData Hrnd) as [_ Hhi].
  pose proof (Hrnd (7 + snd (adjustFeatures rnd trackData))%nat).
  apply round3_range; [reflexivity | reflexivity |].
  split_minmax; lra.
Qed.

Lemma generateIntelligentFeatures_dj_witness :
  isDjArtist seedTrack = true /\
  unitStream halfStream /\
  0.75 <= danceability (values (generateIntelligentFeatures halfStream seedTrack))
       <= 0.95 /\
  123 <= tempo (values (generateIntelligentFeatures halfStream seedTrack)) <= 175.
Proof.
  assert (H : unitStream halfStream).
  { intros i. unfold halfStream. split; [discriminate | reflexivity]. }
  split; [reflexivity|]. split; [exact H|].
  exact (generateIntelligentFeatures_dj halfStream seedTrack eq_refl H).
Defined.

(** ** Genre and keywords *)

Lemma Qltb_lt (a b : Q) : Qltb a b = true <-> a < b.
Proof.
  unfold Qltb. rewrite Qlt_alt. destruct (a ?= b); intuition discriminate.
Qed.

(** The two tests on one feature exclude each other. *)
Lemma Qltb_exclusive (hi lo x : Q) :
  lo <= hi -> Qltb hi x = true -> Qltb x lo = false.
Proof.
  intros Hle H. apply Qltb_lt in H.
  destruct (Qltb x lo) eqn:E; [|reflexivity].
  apply Qltb_lt in E. lra.
Qed.

(** [getFeatureKeywords] returns between 2 and 14 keywords, all different:
    never an empty list, so the keyword query never starts with its
    exclusion. *)
Theorem getFeatureKeywords_size (features : Features) :
  (2 <= length (getFeatureKeywords features) <= 14)%nat /\
  NoDup (getFeatureKeywords features).
Proof.
  unfold getFeatureKeywords.
  destruct (Qltb 0.7 (energy features)) eqn:E1;
    [rewrite (Qltb_exclusive 0.7 0.3 _ ltac:(discriminate) E1)
    |destruct (Qltb (energy features) 0.3)];
  (destruct (Qltb 0.7 (danceability features)) eqn:E2;
    [rewrite (Qltb_exclusive 0.7 0.3 _ ltac:(discriminate) E2)
    |destruct (Qltb (danceability features) 0.3)]);
  (destruct (Qltb 0.7 (valence features)) eqn:E3;
    [rewrite (Qltb_exclusive 0.7 0.3 _ ltac:(discriminate) E3)
    |destruct (Qltb (valence features) 0.3)]);
  (destruct (Qltb 0.6 (acousticness features)) eqn:E4;
    [rewrite (Qltb_exclusive 0.6 0.2 _ ltac:(discriminate) E4)
    |destruct (Qltb (acousticness features) 0.2)]);
  (destruct (Qltb 140 (tempo features)) eqn:E5;
    [rewrite (Qltb_exclusive 140 80 _ ltac:(discriminate) E5)
    |destruct (Qltb (tempo features) 80)]);
  (split; [cbv [app length]; lia | apply (bool_decide_unpack _); vm_compute; exact I]).
Qed.

(** The chain of tests of [getGenreFromFeatures]: "indie" and "ambient" are
    only reached past the test on danceability, through the one on valence
    or the one on energy. *)
Lemma getGenreFromFeatures_cases (features : Features) :
  In (getGenreFromFeatures features)
     ["electronic dance"; "rock"; "folk"; "pop"] \/
  (Qltb 0.7 (danceability features) = false /\
   (Qltb (valence features) 0.3 = true \/
    Qltb (energy features) 0.4 = true)).
Proof.
  unfold getGenreFromFeatures.
  destruct (Qltb 0.8 (energy features) && Qltb 0.7 (danceability features));
    [left; simpl; auto|].
  destruct (Qltb 0.7 (energy features) && Qltb 140 (tempo features));
    [left; simpl; auto|].
  destruct (Qltb 0.6 (acousticness features)); [left; simpl; auto|].
  destruct (Qltb 0.7 (danceability features)); [left; simpl; auto 6|].
  destruct (Qltb (valence features) 0.3); [right; auto|].
  destruct (Qltb (energy features) 0.4); [right; auto|].
  left; simpl; auto 6.
Qed.

(** A danceability above 0.7 makes the genre one of "electronic dance",
    "rock", "folk" and "pop"; an energy of at least 0.4 with a valence of
    at least 0.3 excludes "indie" and "ambient" as well. *)
Theorem getGenreFromFeatures_danceable (features : Features) :
  0.7 < danceability features \/
  (0.4 <= energy features /\ 0.3 <= valence features) ->
  In (getGenreFromFeatures features) ["electronic dance"; "rock"; "folk"; "pop"].
Proof.
  intros H.
  destruct (getGenreFromFeatures_cases features) as [Hin|[Ed Hquiet]];
    [exact Hin|].
  exfalso. destruct H as [H|[He Hv]].
  - apply Qltb_lt in H. congruence.
  - destruct Hquiet as [Ev|Ee];
      [apply Qltb_lt in Ev | apply Qltb_lt in Ee]; lra.
Qed.

Lemma getGenreFromFeatures_danceable_witness :
  (0.7 < danceability seedFeatures \/
   (0.4 <= energy seedFeatures /\ 0.3 <= valence seedFeatures)) /\
  In (getGenreFromFeatures seedFeatures)
    ["electronic dance"; "rock"; "folk"; "pop"].
Proof.
  assert (H : 0.7 < danceability seedFeatures \/
              (0.4 <= energy seedFeatures /\ 0.3 <= valence seedFeatures)).
  { left. vm_compute. reflexivity. }
  split; [exact H|].
  exact (getGenreFromFeatures_danceable seedFeatures H).
Defined.

(** For an artist whose name contains "dj" or "edm" the genre inferred from
    the estimate is never "indie" or "ambient". *)
Theorem dj_artist_genre (rnd : nat -> Q) (trackData : Track) :
  isDjArtist trackData = true ->
  unitStream rnd ->
  In (getGenreFromFeatures (getIntelligentFeatures rnd trackData))
    ["electronic dance"; "rock"; "folk"; "pop"].
Proof.
  intros Hdj Hrnd.
  destruct (getGenreFromFeatures_cases (getIntelligentFeatures rnd trackData))
    as [Hin|[Ed _]]; [exact Hin|].
  exfalso.
  destruct (dj_danceability rnd trackData Hdj Hrnd) as [H _].
  assert (Hlt : 0.7 < danceability (getIntelligentFeatures rnd trackData)).
  { unfold getIntelligentFeatures. cbv [danceability] in *.
    eapply Qlt_le_trans; [|exact H]. reflexivity. }
  apply Qltb_lt in Hlt. congruence.
Qed.

Lemma dj_artist_genre_witness :
  isDjArtist seedTrack = true /\
  unitStream halfStream /\
  In (getGenreFromFeatures (getIntelligentFeatures halfStream seedTrack))
    ["electronic dance"; "rock"; "folk"; "pop"].
Proof.
  assert (H : unitStream halfStream).
  { intros i. unfold halfStream. split; [discriminate | reflexivity]. }
  split; [reflexivity|]. split; [exact H|].
  exact (dj_artist_genre halfStream seedTrack eq_refl H).
Defined.

(** ** The strategies *)

Lemma append_assoc (a b c : string) : (a ++ b) ++ c = a ++ (b ++ c).
Proof.
  induction a as [|x a IH]; [reflexivity|].
  change (String x ((a ++ b) ++ c) = String x (a ++ (b ++ c))).
  rewrite IH. reflexivity.
Qed.

Lemma truthy_append_r (a b : string) :
  truthy (Some b) = true -> truthy (Some (a ++ b)) = true.
Proof. destruct a; [intros H; exact H | reflexivity]. Qed.

Lemma filter_keep {A : Type} (f : A -> bool) (x : A) (l : list A) :
  f x = true -> List.filter f (x :: l) = x :: List.filter f l.
Proof. intros H. simpl. rewrite H. reflexivity. Qed.

Lemma filter_drop {A : Type} (f : A -> bool) (x : A) (l : list A) :
  f x = false -> List.filter f (x :: l) = List.filter f l.
Proof. intros H. simpl. rewrite H. reflexivity. Qed.

(** [releaseYear] is truthy exactly when the release date is not empty
    and does not start with a hyphen. *)
Lemma truthy_releaseYear (seedAlbum : Album) :
  truthy (if truthy (release_date seedAlbum)
          then option_map splitHead (release_date seedAlbum) else None)
  = hasReleaseYear seedAlbum.
Proof.
  unfold hasReleaseYear.
  destruct (release_date seedAlbum) as [[|c rest]|]; reflexivity.
Qed.

(** Five strategies for a seed with a release year, four without. *)
Lemma searchStrategies_length (originalTrack : Track) (seedAlbum : Album)
    (audioFeatures : Features) :
  length (searchStrategies originalTrack seedAlbum audioFeatures)
  = if hasReleaseYear seedAlbum then 5%nat else 4%nat.
Proof.
  unfold searchStrategies.
  rewrite filter_keep by reflexivity.
  rewrite filter_keep by reflexivity.
  rewrite filter_keep by (apply truthy_append_r; reflexivity).
  rewrite truthy_releaseYear. destruct (hasReleaseYear seedAlbum).
  - rewrite filter_keep by reflexivity.
    rewrite filter_keep by reflexivity. reflexivity.
  - rewrite filter_drop by reflexivity.
    rewrite filter_keep by reflexivity. reflexivity.
Qed.

(** The strategies come in the order of the array; "Same decade" is the
    only one that can be missing, and it is exactly when the album has no
    release date or one that starts with a hyphen. *)
Theorem searchStrategies_descriptions (originalTrack : Track)
    (seedAlbum : Album) (audioFeatures : Features) :
  List.map description (searchStrategies originalTrack seedAlbum audioFeatures)
  = if hasReleaseYear seedAlbum
    then ["Similar genre, different artist"; "Same artist, different song";
          "Feature-based keywords"; "Same decade"; "Same album"]
    else ["Similar genre, different artist"; "Same artist, different song";
          "Feature-based keywords"; "Same album"].
Proof.
  unfold searchStrategies.
  rewrite filter_keep by reflexivity.
  rewrite filter_keep by reflexivity.
  rewrite filter_keep by (apply truthy_append_r; reflexivity).
  assert (Hyear :
    truthy (if truthy (release_date seedAlbum)
            then option_map splitHead (release_date seedAlbum) else None)
    = hasReleaseYear seedAlbum).
  { unfold hasReleaseYear.
    destruct (release_date seedAlbum) as [[|c rest]|]; reflexivity. }
  rewrite Hyear. destruct (hasReleaseYear seedAlbum).
  - rewrite filter_keep by reflexivity.
    rewrite filter_keep by reflexivity. reflexivity.
  - rewrite filter_drop by reflexivity.
    rewrite filter_keep by reflexivity. reflexivity.
Qed.

(** Every query ends with the exclusion of the seed's artist or of the
    seed's title. *)
Theorem searchStrategies_exclude_seed (originalTrack : Track)
    (seedAlbum : Album) (audioFeatures : Features) (strategy : SearchStrategy) :
  In strategy (searchStrategies originalTrack seedAlbum audioFeatures) ->
  exists front,
    queryText strategy = front ++ notArtistClause originalTrack \/
    queryText strategy = front ++ notTrackClause originalTrack.
Proof.
  unfold searchStrategies. intros [Hin Hq]%filter_In.
  fold (notArtistClause originalTrack) in Hin.
  fold (notTrackClause originalTrack) in Hin.
  destruct Hin as [<-|[<-|[<-|[<-|[<-|[]]]]]]; unfold queryText;
    cbv [query] in *.
  - eexists. left. rewrite <- !append_assoc. reflexivity.
  - eexists. right. rewrite <- !append_assoc. reflexivity.
  - eexists. left. reflexivity.
  - match goal with
    | |- context [if ?b then Some _ else None] => destruct b
    end; [|discriminate].
    eexists. left. rewrite <- !append_assoc. reflexivity.
  - eexists. right. rewrite <- !append_assoc. reflexivity.
Qed.

Lemma searchStrategies_exclude_seed_witness :
  In {| query := Some artistQuery; description := "Same artist, different song" |}
     (searchStrategies seedTrack sampleAlbum seedFeatures) /\
  exists front,
    artistQuery = front ++ notArtistClause seedTrack \/
    artistQuery = front ++ notTrackClause seedTrack.
Proof.
  assert (H : In {| query := Some artistQuery;
                    description := "Same artist, different song" |}
                 (searchStrategies seedTrack sampleAlbum seedFeatures)).
  { right. left. reflexivity. }
  split; [exact H|].
  exact (searchStrategies_exclude_seed seedTrack sampleAlbum seedFeatures _ H).
Defined.



(** ** The score: bands and edge values *)



(** The score is [NaN] as soon as a popularity or a duration is absent on
    either side, and when both durations are 0. *)
Theorem calculateSimilarityScore_NaN (targetFeatures : Features)
    (candidate seed : Track) :
  popularity candidate = None \/ popularity seed = None \/
  duration_ms candidate = None \/ duration_ms seed = None \/
  (duration_ms candidate = Some 0%Z /\ duration_ms seed = Some 0%Z) ->
  calculateSimilarityScore targetFeatures candidate seed = NaN.
Proof.
  unfold calculateSimilarityScore.
  intros [H|[H|[H|[H|[H1 H2]]]]]; rewrite ?H, ?H1, ?H2;
    destruct (String.eqb _ _), (truthy _), (strictEqual _ _),
      (popularity candidate), (popularity seed),
      (duration_ms candidate), (duration_ms seed);
    try reflexivity;
    lazy beta iota zeta delta
      [toNumber num_sub num_add num_neg num_abs num_div num_mul num_min
       num_max];
    change (100 ?= 0) with Gt; lazy beta iota; reflexivity.
Qed.

Lemma calculateSimilarityScore_NaN_witness :
  let candidate :=
    {| id := "n"; name := "No Popularity"; artists0 := {| artist_name := "X" |};
       album := None; genres := None; popularity := None;
       duration_ms := Some 200000%Z; explicit := None; preview_url := None;
       _strategy := None; _similarity := None |} in
  (popularity candidate = None \/ popularity seedTrack = None \/
   duration_ms candidate = None \/ duration_ms seedTrack = None \/
   (duration_ms candidate = Some 0%Z /\ duration_ms seedTrack = Some 0%Z)) /\
  calculateSimilarityScore baseFeatures candidate seedTrack = NaN.
Proof.
  intros candidate.
  assert (H : popularity candidate = None \/ popularity seedTrack = None \/
              duration_ms candidate = None \/ duration_ms seedTrack = None \/
              (duration_ms candidate = Some 0%Z /\
               duration_ms seedTrack = Some 0%Z)).
  { left. reflexivity. }
  split; [exact H|].
  exact (calculateSimilarityScore_NaN baseFeatures candidate seedTrack H).
Defined.

(** ** Deduplication: fixed points *)

Lemma removeDuplicatesFrom_distinct (seen : gset string) (tracks : list Track) :
  NoDup (dedupKey <$> tracks) ->
  (forall t, t ∈ tracks -> dedupKey t ∉ seen) ->
  removeDuplicatesFrom seen tracks = tracks.
Proof.
  revert seen. induction tracks as [|u rest IH]; intros seen Hnd Hseen;
    [reflexivity|].
  simpl. rewrite fmap_cons in Hnd. apply NoDup_cons in Hnd as [Hu Hrest].
  case_bool_decide as Hk.
  - exfalso. apply (Hseen u); [left | exact Hk].
  - f_equal. apply IH; [exact Hrest|].
    intros t Ht [Hin|Hin%elem_of_singleton]%elem_of_union.
    + apply (Hseen t); [right; exact Ht | exact Hin].
    + apply Hu. rewrite <- Hin. apply list_elem_of_fmap. exists t. auto.
Qed.

(** [removeDuplicateTracks] returns its input unchanged exactly when the
    keys of the input are pairwise different. *)
Theorem removeDuplicateTracks_unchanged (tracks : list Track) :
  removeDuplicateTracks tracks = tracks <-> NoDup (dedupKey <$> tracks).
Proof.
  unfold removeDuplicateTracks. split.
  - intros H. rewrite <- H. apply removeDuplicatesFrom_NoDup.
  - intros H. apply removeDuplicatesFrom_distinct; [exact H|].
    intros t _. apply not_elem_of_empty.
Qed.

(** Deduplicating a second time changes nothing. *)
Theorem removeDuplicateTracks_idempotent (tracks : list Track) :
  removeDuplicateTracks (removeDuplicateTracks tracks)
  = removeDuplicateTracks tracks.
Proof.
  unfold removeDuplicateTracks.
  apply removeDuplicatesFrom_distinct; [apply removeDuplicatesFrom_NoDup|].
  intros t _. apply not_elem_of_empty.
Qed.

(** ** The list the aggregation returns *)

Lemma slice0_length {A : Type} (l : list A) (n : Z) :
  (0 <= n)%Z -> (Z.of_nat (length (slice0 l (Some n))) <= n)%Z.
Proof.
  intros Hn. unfold slice0.
  destruct (n <? 0)%Z eqn:E; [apply Z.ltb_lt in E; lia|].
  rewrite length_take. lia.
Qed.

(** The list [findSimilarTracksViaSpotify] returns has at most 10
    candidates, and their keys are pairwise different. *)
Theorem findSimilarTracksViaSpotify_ten_distinct (catalog : Catalog)
    (originalTrack : Track) (audioFeatures : Features) (token : string)
    (trace : list Event) :
  match
    fst (findSimilarTracksViaSpotify catalog originalTrack audioFeatures token
           trace)
  with
  | Returned ranked =>
      (length ranked <= 10)%nat /\ NoDup (dedupKey <$> ranked)
  | Thrown _ => True
  end.
Proof.
  destruct (album originalTrack) as [seedAlbum|] eqn:Halbum.
  - rewrite (findSimilarTracksViaSpotify_result _ _ _ _ _ _ Halbum).
    cbv beta iota delta [fst]. unfold rankedCandidates. split.
    + match goal with
      | |- (length (slice0 ?l _) <= _)%nat =>
          pose proof (slice0_length l 10 ltac:(lia))
      end. lia.
    + eapply sublist_NoDup;
        [|apply fmap_sublist, slice0_sublist].
      rewrite sortWith_Permutation. apply removeDuplicatesFrom_NoDup.
  - unfold findSimilarTracksViaSpotify. rewrite Halbum. exact I.
Qed.

Lemma calculateSimilarityScore_annotated (targetFeatures : Features)
    (track seed : Track) (d : string) (v : number) :
  calculateSimilarityScore targetFeatures (setSimilarity v (setStrategy d track))
    seed
  = calculateSimilarityScore targetFeatures track seed.
Proof. reflexivity. Qed.

Lemma strategyCandidates_annotated (catalog : Catalog) (originalTrack : Track)
    (audioFeatures : Features) (strategy : SearchStrategy) :
  Forall (fun track =>
            _strategy track = Some (description strategy) /\
            _similarity track
            = Some (calculateSimilarityScore audioFeatures track originalTrack))
    (strategyCandidates catalog originalTrack audioFeatures strategy).
Proof.
  unfold strategyCandidates.
  destruct (searchResponse catalog (queryText strategy)) as [m|[] st [items|m]];
    try constructor.
  apply Forall_map, List.Forall_forall. intros track _. split; reflexivity.
Qed.

(** Every candidate [findSimilarTracksViaSpotify] returns carries the
    description of one of the strategies of the call as [_strategy], and as
    [_similarity] its own score against the seed. *)
Theorem findSimilarTracksViaSpotify_annotated (catalog : Catalog)
    (originalTrack : Track) (seedAlbum : Album) (audioFeatures : Features)
    (token : string) (trace : list Event) :
  album originalTrack = Some seedAlbum ->
  exists ranked trace',
    findSimilarTracksViaSpotify catalog originalTrack audioFeatures token trace
    = (Returned ranked, trace') /\
    Forall (annotatedFor catalog originalTrack seedAlbum audioFeatures) ranked.
Proof.
  intros Halbum.
  rewrite (findSimilarTracksViaSpotify_result _ _ _ _ _ _ Halbum).
  eexists _, _. split; [reflexivity|].
  unfold rankedCandidates.
  eapply Forall_sublist; [apply slice0_sublist|].
  eapply Permutation_Forall; [symmetry; apply sortWith_Permutation|].
  eapply Forall_sublist; [apply removeDuplicatesFrom_sublist|].
  apply Forall_flat_map, List.Forall_forall. intros strategy Hin.
  eapply List.Forall_impl; [|apply strategyCandidates_annotated].
  intros track [Hs Hv]. split; [|exact Hv].
  exists strategy. split; assumption.
Qed.

Lemma findSimilarTracksViaSpotify_annotated_witness :
  album seedTrack = Some sampleAlbum /\
  exists ranked trace',
    findSimilarTracksViaSpotify sampleCatalog seedTrack seedFeatures "token" []
    = (Returned ranked, trace') /\
    Forall (annotatedFor sampleCatalog seedTrack sampleAlbum seedFeatures)
      ranked.
Proof.
  split; [reflexivity|].
  apply (findSimilarTracksViaSpotify_annotated sampleCatalog seedTrack
           sampleAlbum seedFeatures "token" []).
  reflexivity.
Defined.

(** One call issues one search for each strategy and nothing else: ten
    events for a seed with a release year, eight without. *)
Theorem findSimilarTracksViaSpotify_searches (catalog : Catalog)
    (originalTrack : Track) (seedAlbum : Album) (audioFeatures : Features)
    (token : string) :
  album originalTrack = Some seedAlbum ->
  let trace :=
    snd (findSimilarTracksViaSpotify catalog originalTrack audioFeatures
           token []) in
  length trace = (if hasReleaseYear seedAlbum then 10 else 8)%nat /\
  Forall (fun e => exists strategy,
            In strategy
               (searchStrategies originalTrack seedAlbum audioFeatures) /\
            (e = SearchIssued (queryText strategy) \/
             e = SearchSettled (queryText strategy)))
    trace.
Proof.
  intros Halbum trace. subst trace.
  rewrite (findSimilarTracksViaSpotify_result _ _ _ _ _ _ Halbum).
  cbv beta iota delta [snd]. rewrite app_nil_l. split.
  - pose proof (searchStrategies_length originalTrack seedAlbum
                  audioFeatures) as Hd.
    revert Hd.
    generalize (searchStrategies originalTrack seedAlbum audioFeatures).
    intros l Hl.
    assert (Hlen : forall l' : list SearchStrategy,
               length (flat_map strategyEvents l') = (2 * length l')%nat).
    { induction l' as [|s l' IH]; [reflexivity|].
      simpl. rewrite IH. lia. }
    rewrite Hlen, Hl. destruct (hasReleaseYear seedAlbum); reflexivity.
  - apply Forall_flat_map, List.Forall_forall. intros strategy Hin.
    unfold strategyEvents. repeat constructor; exists strategy; auto.
Qed.

Lemma findSimilarTracksViaSpotify_searches_witness :
  album seedTrack = Some sampleAlbum /\
  length (snd (findSimilarTracksViaSpotify sampleCatalog seedTrack
                 seedFeatures "token" []))
  = 10%nat.
Proof.
  split; [reflexivity|].
  exact (proj1 (findSimilarTracksViaSpotify_searches sampleCatalog seedTrack
                  sampleAlbum seedFeatures "token" eq_refl)).
Defined.




Lemma sortedByb_app {A : Type} (leb : A -> A -> bool) (l1 l2 : list A) :
  sortedByb leb (l1 ++ l2)%list = true ->
  forall a b, In a l1 -> In b l2 -> leb a b = true.
Proof.
  induction l1 as [|x l1 IH]; intros H a b Ha Hb; [destruct Ha|].
  simpl in H. apply andb_true_iff in H as [Hx Hrest].
  destruct Ha as [<-|Ha].
  - rewrite forallb_forall in Hx. apply Hx, in_or_app. right. exact Hb.
  - apply IH; assumption.
Qed.

Lemma strategyCandidates_numeric (catalog : Catalog) (originalTrack : Track)
    (audioFeatures : Features) (strategy : SearchStrategy) :
  (forall q st items,
      searchResponse catalog q = Resolved true st (Returned items) ->
      forallb (fun item => scorable item originalTrack) items = true) ->
  forallb hasNumericScore
    (strategyCandidates catalog originalTrack audioFeatures strategy) = true.
Proof.
  intros Hcat. unfold strategyCandidates.
  destruct (searchResponse catalog (queryText strategy))
    as [m|[] st [items|m]] eqn:E; try reflexivity.
  specialize (Hcat _ _ _ E). rewrite forallb_forall in Hcat |- *.
  intros t (item & <- & [Hitem _]%filter_In)%in_map_iff.
  unfold hasNumericScore, similarityOf. cbv [setSimilarity _similarity].
  rewrite calculateSimilarityScore_value; [reflexivity|].
  apply (Hcat item Hitem).
Qed.

(** When every track the catalog returns has a popularity in [0,100] and a
    duration, and the seed a positive duration, the returned list is in
    descending order of score, and a deduplicated candidate that is left out
    scores no more than any candidate that is returned. *)
Theorem findSimilarTracksViaSpotify_best_first (catalog : Catalog)
    (originalTrack : Track) (seedAlbum : Album) (audioFeatures : Features)
    (token : string) :
  album originalTrack = Some seedAlbum ->
  (forall q st items,
      searchResponse catalog q = Resolved true st (Returned items) ->
      forallb (fun item => scorable item originalTrack) items = true) ->
  exists ranked trace',
    findSimilarTracksViaSpotify catalog originalTrack audioFeatures token []
    = (Returned ranked, trace') /\
    sortedByb scoreGeb ranked = true /\
    forall kept dropped,
      In kept ranked ->
      In dropped
         (removeDuplicateTracks
            (flat_map (strategyCandidates catalog originalTrack audioFeatures)
               (searchStrategies originalTrack seedAlbum audioFeatures))) ->
      ~ In dropped ranked ->
      scoreGeb kept dropped = true.
Proof.
  intros Halbum Hcat.
  rewrite (findSimilarTracksViaSpotify_result _ _ _ _ _ _ Halbum).
  eexists _, _. split; [reflexivity|].
  unfold rankedCandidates.
  set (unique :=
         removeDuplicateTracks
           (flat_map (strategyCandidates catalog originalTrack audioFeatures)
              (searchStrategies originalTrack seedAlbum audioFeatures))).
  assert (Hnum : forallb hasNumericScore unique = true).
  { rewrite forallb_forall. intros t Ht. apply list_elem_of_In in Ht.
    pose proof (elem_of_sublist _ _ _ Ht (removeDuplicatesFrom_sublist _ _))
      as Hin.
    apply list_elem_of_In, in_flat_map in Hin as (strategy & _ & Hin).
    pose proof (strategyCandidates_numeric catalog originalTrack audioFeatures
                  strategy Hcat) as Hs.
    rewrite forallb_forall in Hs. apply Hs, Hin. }
  destruct (sortWith_sorted unique Hnum) as [_ Hsorted].
  set (sorted := sortWith bySimilarity unique) in *.
  unfold slice0. change (10 <? 0)%Z with false. cbv beta iota.
  set (n := Z.to_nat (Z.min 10 (Z.of_nat (length sorted)))).
  rewrite <- (take_drop n sorted) in Hsorted.
  split.
  - clear -Hsorted. revert Hsorted. generalize (drop n sorted).
    induction (take n sorted) as [|x l IH]; intros rest H; [reflexivity|].
    simpl in H |- *. apply andb_true_iff in H as [Hx Hl].
    apply andb_true_iff. split; [|apply (IH rest Hl)].
    rewrite forallb_forall in Hx |- *. intros y Hy.
    apply Hx, in_or_app. left. exact Hy.
  - intros kept dropped Hk Hd Hnot.
    apply (sortedByb_app _ _ _ Hsorted); [exact Hk|].
    assert (Hin : In dropped sorted).
    { apply (Permutation_in _ (Permutation_sym (sortWith_Permutation _ unique))).
      exact Hd. }
    rewrite <- (take_drop n sorted) in Hin.
    apply in_app_or in Hin as [Hin|Hin]; [contradiction | exact Hin].
Qed.

Lemma findSimilarTracksViaSpotify_best_first_witness :
  album seedTrack = Some sampleAlbum /\
  exists ranked trace',
    findSimilarTracksViaSpotify sampleCatalog seedTrack seedFeatures "token" []
    = (Returned ranked, trace') /\
    sortedByb scoreGeb ranked = true.
Proof.
  split; [reflexivity|].
  destruct (findSimilarTracksViaSpotify_best_first sampleCatalog seedTrack
              sampleAlbum seedFeatures "token" eq_refl)
    as (ranked & trace' & Hrun & Hsorted & _).
  - intros q st items. unfold sampleCatalog, searchResponse.
    destruct (String.prefix "genre:" q).
    + intros [= _ <-]. reflexivity.
    + destruct (String.prefix "artist:" q); discriminate.
  - exists ranked, trace'. split; assumption.
Defined.

(** ** The token cache *)

Lemma tokenCache_refresh (s : TokenCache.State) (now t st : Z)
    (data : TokenCache.TokenData) :
  TokenCache.fresh s now = false ->
  TokenCache.getSpotifyToken s now (Resolved true st (Returned data)) t
  = {| TokenCache.outcome := Returned (TokenCache.access_token data);
       TokenCache.state :=
         {| TokenCache.spotifyAccessToken := TokenCache.access_token data;
            TokenCache.tokenExpiryTime :=
              (t + TokenCache.expires_in data * 1000)%Z |};
       TokenCache.requested := true |}.
Proof. intros H. unfold TokenCache.getSpotifyToken. rewrite H. reflexivity. Qed.

(** After a refresh that succeeded at time [t] with a token that is not
    empty and lives [expires_in] seconds, every call made from [t] until
    five minutes before the expiry returns that token without a request and
    keeps the cache, whatever the token endpoint would answer. *)
Theorem tokenCache_reuse (s : TokenCache.State) (now t later st : Z)
    (data : TokenCache.TokenData) (other : Response TokenCache.TokenData)
    (laterAfter : Z) :
  TokenCache.fresh s now = false ->
  TokenCache.access_token data <> EmptyString ->
  (later < t + TokenCache.expires_in data * 1000 - 300000)%Z ->
  let first :=
    TokenCache.getSpotifyToken s now (Resolved true st (Returned data)) t in
  let second :=
    TokenCache.getSpotifyToken (TokenCache.state first) later other laterAfter in
  TokenCache.outcome first = Returned (TokenCache.access_token data) /\
  TokenCache.outcome second = Returned (TokenCache.access_token data) /\
  TokenCache.requested second = false /\
  TokenCache.state second = TokenCache.state first.
Proof.
  intros Hstale Htoken Hlater first second. subst first second.
  rewrite (tokenCache_refresh s now t st data Hstale).
  cbv beta iota delta [TokenCache.state TokenCache.outcome].
  unfold TokenCache.getSpotifyToken.
  assert (Hfresh :
    TokenCache.fresh
      {| TokenCache.spotifyAccessToken := TokenCache.access_token data;
         TokenCache.tokenExpiryTime :=
           (t + TokenCache.expires_in data * 1000)%Z |} later = true).
  { unfold TokenCache.fresh.
    cbv beta iota delta
      [TokenCache.spotifyAccessToken TokenCache.tokenExpiryTime].
    apply andb_true_iff. split.
    - destruct (TokenCache.access_token data); [contradiction | reflexivity].
    - apply Z.ltb_lt. lia. }
  rewrite Hfresh. repeat split; reflexivity.
Qed.

Lemma tokenCache_reuse_witness :
  let data := {| TokenCache.access_token := "abc";
                 TokenCache.expires_in := 3600 |} in
  let first :=
    TokenCache.getSpotifyToken TokenCache.initial 1000
      (Resolved true 200 (Returned data)) 1200 in
  let second :=
    TokenCache.getSpotifyToken (TokenCache.state first) 3000000
      (Rejected "offline") 3000001 in
  TokenCache.fresh TokenCache.initial 1000 = false /\
  TokenCache.access_token data <> EmptyString /\
  (3000000 < 1200 + TokenCache.expires_in data * 1000 - 300000)%Z /\
  TokenCache.outcome second = Returned "abc" /\
  TokenCache.requested second = false.
Proof.
  intros data first second.
  split; [reflexivity|]. split; [discriminate|]. split; [reflexivity|].
  destruct (tokenCache_reuse TokenCache.initial 1000 1200 3000000 200 data
              (Rejected "offline") 3000001 eq_refl ltac:(discriminate)
              eq_refl)
    as (_ & H2 & H3 & _).
  split; assumption.
Defined.

(** A call that has to refresh and gets a failed answer (the request
    throws, the status is not a success, or the body cannot be read) throws,
    and leaves the token and its expiry as they were: the next call is not
    served a token that was never obtained. *)
Theorem tokenCache_failure (s : TokenCache.State) (now nowAfter : Z)
    (response : Response TokenCache.TokenData) :
  TokenCache.fresh s now = false ->
  TokenCache.failed response = true ->
  let result := TokenCache.getSpotifyToken s now response nowAfter in
  (exists message, TokenCache.outcome result = Thrown message) /\
  TokenCache.state result = s /\
  TokenCache.requested result = true.
Proof.
  intros Hstale Hfailed result. subst result.
  unfold TokenCache.getSpotifyToken. rewrite Hstale.
  destruct response as [m|[] st [data|m]]; try discriminate Hfailed;
    (split; [eexists; reflexivity | split; reflexivity]).
Qed.

Lemma tokenCache_failure_witness :
  let result :=
    TokenCache.getSpotifyToken TokenCache.initial 1000
      (Resolved false 401 (Thrown "unauthorized")) 1200 in
  TokenCache.fresh TokenCache.initial 1000 = false /\
  TokenCache.failed (Resolved false 401 (Thrown "unauthorized")) = true /\
  (exists message, TokenCache.outcome result = Thrown message) /\
  TokenCache.state result = TokenCache.initial.
Proof.
  intros result. split; [reflexivity|]. split; [reflexivity|].
  destruct (tokenCache_failure TokenCache.initial 1000 1200
              (Resolved false 401 (Thrown "unauthorized")) eq_refl eq_refl)
    as (H1 & H2 & _).
  split; assumption.
Defined.

(** A token that lives five minutes or less is never served from the
    cache: after it is stored at time [t], every call from [t] on sends a
    new request. *)
Theorem tokenCache_short_lived (s : TokenCache.State) (now t later st : Z)
    (data : TokenCache.TokenData) (other : Response TokenCache.TokenData)
    (laterAfter : Z) :
  TokenCache.fresh s now = false ->
  (TokenCache.expires_in data <= 300)%Z ->
  (t <= later)%Z ->
  let first :=
    TokenCache.getSpotifyToken s now (Resolved true st (Returned data)) t in
  TokenCache.requested
    (TokenCache.getSpotifyToken (TokenCache.state first) later other
       laterAfter)
  = true.
Proof.
  intros Hstale Hshort Hlater first. subst first.
  rewrite (tokenCache_refresh s now t st data Hstale).
  cbv beta iota delta [TokenCache.state].
  unfold TokenCache.getSpotifyToken.
  assert (Hfresh :
    TokenCache.fresh
      {| TokenCache.spotifyAccessToken := TokenCache.access_token data;
         TokenCache.tokenExpiryTime :=
           (t + TokenCache.expires_in data * 1000)%Z |} later = false).
  { unfold TokenCache.fresh.
    cbv beta iota delta
      [TokenCache.spotifyAccessToken TokenCache.tokenExpiryTime].
    apply andb_false_iff. right. apply Z.ltb_ge. lia. }
  rewrite Hfresh.
  destruct other as [m|[] st' [data'|m]]; reflexivity.
Qed.

Lemma tokenCache_short_lived_witness :
  let data := {| TokenCache.access_token := "abc";
                 TokenCache.expires_in := 300 |} in
  let first :=
    TokenCache.getSpotifyToken TokenCache.initial 1000
      (Resolved true 200 (Returned data)) 1200 in
  TokenCache.fresh TokenCache.initial 1000 = false /\
  (TokenCache.expires_in data <= 300)%Z /\
  (1200 <= 1200)%Z /\
  TokenCache.requested
    (TokenCache.getSpotifyToken (TokenCache.state first) 1200
       (Rejected "offline") 1201)
  = true.
Proof.
  intros data first.
  split; [reflexivity|]. split; [discriminate|]. split; [discriminate|].
  exact (tokenCache_short_lived TokenCache.initial 1000 1200 1200 200 data
           (Rejected "offline") 1201 eq_refl ltac:(discriminate)
           ltac:(discriminate)).
Defined.

(** ** The routes: sizes and unknown seeds *)

Lemma slice0_shorter {A : Type} (l : list A) (end_ : option Z) :
  (length (slice0 l end_) <= length l)%nat.
Proof. apply sublist_length, slice0_sublist. Qed.

Lemma rankedCandidates_length (catalog : Catalog) (originalTrack : Track)
    (seedAlbum : Album) (audioFeatures : Features) :
  (length (rankedCandidates catalog originalTrack seedAlbum audioFeatures)
   <= 10)%nat.
Proof.
  unfold rankedCandidates.
  match goal with
  | |- (length (slice0 ?l _) <= _)%nat =>
      pose proof (slice0_length l 10 ltac:(lia))
  end. lia.
Qed.

(** Runs the plumbing of a route, and none of the functions it calls. *)
Ltac route_steps :=
  lazy beta iota zeta delta
    [tryCatch io_bind emit settle io_ret throw responseOk responseJson app
     negb fst snd status body].

(** Whatever the request and the catalog, [/api/recommendations] answers:
    with status 400 or 500 and an error, or with status 200 and a list of
    at most 10 tracks, and of at most [n] tracks when the request asks for
    [n >= 0]: at most 9 when it names no limit. *)
Theorem recommendationsRoute_size (catalog : Catalog) (rnd : nat -> Q)
    (seed_tracks limit : option string) :
  match fst (recommendationsRoute catalog rnd seed_tracks limit []) with
  | Returned {| status := st; body := TrackListBody tracks |} =>
      st = 200%Z /\
      (length tracks <= 10)%nat /\
      (forall n, requestedLimit limit = Some n -> (0 <= n)%Z ->
                 (Z.of_nat (length tracks) <= n)%Z)
  | Returned {| status := st; body := ErrorBody _ _ _ |} =>
      st = 400%Z \/ st = 500%Z
  | _ => False
  end.
Proof.
  unfold recommendationsRoute, getSpotifyToken, fetchTrack.
  fold (requestedLimit limit).
  destruct seed_tracks as [[|c seedId]|];
    [route_steps; auto | | route_steps; auto].
  destruct (tokenOutcome catalog) as [token|m]; [|route_steps; auto].
  destruct (trackResponse catalog (String c seedId)) as [m|[] st [seed|m]].
  - route_steps; auto.
  - route_steps.
    destruct (album seed) as [seedAlbum|] eqn:Halbum.
    + rewrite (findSimilarTracksViaSpotify_result _ _ _ _ _ _ Halbum).
      route_steps.
      pose proof (rankedCandidates_length catalog seed seedAlbum
                    (getIntelligentFeatures rnd seed)) as Hten.
      set (ranked := rankedCandidates catalog seed seedAlbum
                       (getIntelligentFeatures rnd seed)) in *.
      split; [reflexivity|]. split.
      * pose proof (slice0_shorter ranked
                      (minLimit (requestedLimit limit) (length ranked))).
        lia.
      * intros n Hn Hpos. rewrite Hn. unfold minLimit, option_map.
        pose proof (slice0_length ranked (Z.min n (Z.of_nat (length ranked)))
                      ltac:(lia)).
        lia.
    + unfold findSimilarTracksViaSpotify. rewrite Halbum. route_steps. auto.
  - route_steps; auto.
  - route_steps. split; [reflexivity|]. split; [simpl; lia|].
    intros n _ Hn. simpl. lia.
  - route_steps. split; [reflexivity|]. split; [simpl; lia|].
    intros n _ Hn. simpl. lia.
Qed.



Lemma similarSongRoute_seed_failure_witness :
  ((exists message, tokenOutcome failingCatalog = Thrown message) \/
   (exists message, trackResponse failingCatalog "nope" = Rejected message) \/
   (exists st json,
       trackResponse failingCatalog "nope" = Resolved false st json) \/
   (exists st message,
       trackResponse failingCatalog "nope"
       = Resolved true st (Thrown message))) /\
  exists details trace,
    similarSongRoute failingCatalog halfStream "nope" []
    = (Returned
         {| status := 500;
            body := ErrorBody "Failed to find similar song" (Some details)
                      (Some "nope") |},
       trace) /\
    Forall (fun e => forall q, e <> SearchIssued q) trace.
Proof.
  assert (H :
    (exists message, tokenOutcome failingCatalog = Thrown message) \/
    (exists message, trackResponse failingCatalog "nope" = Rejected message) \/
    (exists st json,
        trackResponse failingCatalog "nope" = Resolved false st json) \/
    (exists st message,
        trackResponse failingCatalog "nope"
        = Resolved true st (Thrown message))).
  { right. right. left. exists 404%Z, (Thrown "not found"). reflexivity. }
  split; [exact H|].
  exact (similarSongRoute_seed_failure failingCatalog halfStream "nope" H).
Defined.

(** Whatever the request and the catalog, [/api/similar-song/:trackId]
    answers with status 500 and an error, or with status 200 and a body in
    which [allSimilarTracks] has at most 10 tracks, [similarTracks] is its
    first 5, the two counts of [pipeline] are the two lengths, and [success]
    tells whether any track was found. *)
Theorem similarSongRoute_reply (catalog : Catalog) (rnd : nat -> Q)
    (trackId : string) :
  match fst (similarSongRoute catalog rnd trackId []) with
  | Returned {| status := st;
                body := SimilarSongBody _ _ top all pipeline |} =>
      st = 200%Z /\
      (length all <= 10)%nat /\
      top = take 5 all /\
      tracksFound pipeline = length all /\
      topMatches pipeline = length top /\
      (success pipeline = true <-> all <> [])
  | Returned {| status := st; body := ErrorBody _ _ _ |} => st = 500%Z
  | _ => False
  end.
Proof.
  unfold similarSongRoute, getSpotifyToken, fetchTrack.
  destruct (tokenOutcome catalog) as [token|m]; [|route_steps; auto].
  destruct (trackResponse catalog trackId) as [m|[] st [seed|m]];
    try (route_steps; auto; fail).
  route_steps.
  destruct (album seed) as [seedAlbum|] eqn:Halbum.
  - rewrite (findSimilarTracksViaSpotify_result _ _ _ _ _ _ Halbum).
    route_steps.
    pose proof (rankedCandidates_length catalog seed seedAlbum
                  (getIntelligentFeatures rnd seed)) as Hten.
    set (ranked := rankedCandidates catalog seed seedAlbum
                     (getIntelligentFeatures rnd seed)) in *.
    assert (Htop :
      (if (0 <? length ranked)%nat then slice0 ranked (Some 5%Z) else [])
      = take 5 ranked).
    { destruct ranked as [|x rest]; [reflexivity|].
      change (0 <? length (x :: rest))%nat with true. cbv beta iota.
      unfold slice0. change (5 <? 0)%Z with false. cbv beta iota.
      replace (Z.to_nat (Z.min 5 (Z.of_nat (length (x :: rest)))))
        with (Nat.min 5 (length (x :: rest))) by lia.
      rewrite <- take_take. rewrite (take_ge (x :: rest)) by lia.
      reflexivity. }
    rewrite Htop. cbv [tracksFound topMatches success].
    repeat split; try reflexivity; try assumption.
    + intros H ->. discriminate H.
    + intros H. destruct ranked; [contradiction | reflexivity].
  - unfold findSimilarTracksViaSpotify. rewrite Halbum. route_steps.
    reflexivity.
Qed.

(** Whatever the request and the catalog, [/api/audio-features/:trackId]
    answers with status 500 and an error, or with status 200 and an
    estimate whose bounded fields are in their ranges and which is tagged as
    an estimation; it never issues a search. *)
Theorem audioFeaturesRoute_reply (catalog : Catalog) (rnd : nat -> Q)
    (trackId : string) :
  match fst (audioFeaturesRoute catalog rnd trackId []) with
  | Returned (st, FeaturesBody features) =>
      st = 200%Z /\
      fieldsInRange (values features) /\
      _source features = "intelligent_estimation"
  | Returned (st, FeaturesError _ _ requestId) =>
      st = 500%Z /\ requestId = trackId
  | Thrown _ => False
  end /\
  Forall (fun e => forall q, e <> SearchIssued q)
    (snd (audioFeaturesRoute catalog rnd trackId [])).
Proof.
  unfold audioFeaturesRoute, getSpotifyToken, fetchTrack.
  destruct (tokenOutcome catalog) as [token|m];
    [|route_steps; split; [auto | repeat constructor; discriminate]].
  destruct (trackResponse catalog trackId) as [m|[] st [seed|m]];
    route_steps;
    (split; [|repeat constructor; discriminate]); auto.
  split; [reflexivity|]. split; [apply generateIntelligentFeatures_in_range|].
  unfold generateIntelligentFeatures.
  destruct (fold_left (jitterKey rnd) featureKeys (adjustFeatures rnd seed)).
  reflexivity.
Qed.

Lemma generateIntelligentFeatures_defaults_witness :
  let bare :=
    {| id := "bare"; name := "Quiet Song";
       artists0 := {| artist_name := "Nobody" |};
       album := None; genres := None; popularity := None;
       duration_ms := None; explicit := None; preview_url := None;
       _strategy := None; _similarity := None |} in
  popularity bare = None /\ duration_ms bare = None /\ album bare = None /\
  generateIntelligentFeatures halfStream bare
  = generateIntelligentFeatures halfStream
      {| id := "bare"; name := "Quiet Song";
         artists0 := {| artist_name := "Nobody" |};
         album := Some {| album_name := EmptyString; release_date := None |};
         genres := None; popularity := Some 50%Z;
         duration_ms := Some 180000%Z; explicit := None; preview_url := None;
         _strategy := None; _similarity := None |}.
Proof.
  intros bare. do 3 (split; [reflexivity|]).
  exact (generateIntelligentFeatures_defaults halfStream bare
           eq_refl eq_refl eq_refl).
Defined.

